(** * Pterodactyl deploy bot: the orchestration layer of [bot.py]

    A shallow embedding of the database helpers, the two panel adapters,
    the authorization gate and the command handlers of [bot.py], and the
    properties of the specification that were checked against them.

    Conventions of the embedding:
    - the three SQLite tables are lists of rows in rowid order, each with
      the counter SQLite keeps for an AUTOINCREMENT key;
    - a handler is a function from the store to an outcome: its result
      (a value or a raised exception), the store it leaves, and the
      events it emitted (network requests and chat messages), in order;
    - everything the handler cannot decide itself (configuration, what
      the panel answers, whether a direct message goes through, which
      messages arrive) is read from a [World]. *)

From Stdlib Require Import Ascii String DecimalString DecimalPos DecimalZ.
From stdpp Require Import base option list strings gmap sorting.

Local Open Scope string_scope.
Local Open Scope Z_scope.
Local Open Scope list_scope.
Local Set Warnings "-register-all".

(** ** Python values *)

(** [str(n)] and [int(s)] for integers, on decimal numerals. [int] is
    the parser of the numerals that [str] prints, the only ones the bot
    stores. *)
Definition str (z : Z) : string := NilZero.string_of_int (Z.to_int z).

Definition int (s : string) : option Z :=
  Z.of_int <$> NilZero.int_of_string s.

(** A JSON document, as [json.load] and [resp.json()] build it and as a
    request body is written. Objects keep their keys in order. *)
Inductive Json : Type :=
| JNull
| JBool (b : bool)
| JInt (z : Z)
| JStr (s : string)
| JList (xs : list Json)
| JDict (kvs : list (string * Json)).

(** Truth value of a Python object in [if x:], [not x] and [x or y]. *)
Definition truthy (v : Json) : bool :=
  match v with
  | JNull => false
  | JBool b => b
  | JInt z => negb (z =? 0)
  | JStr s => negb (String.eqb s "")
  | JList xs => match xs with [] => false | _ => true end
  | JDict kvs => match kvs with [] => false | _ => true end
  end.

Definition truthy_str (o : option string) : bool :=
  match o with
  | Some s => negb (String.eqb s "")
  | None => false
  end.

(** [d.get(k)] on the items of a dict. *)
Fixpoint dict_get {A : Type} (k : string) (kvs : list (string * A)) : option A :=
  match kvs with
  | [] => None
  | (k', v) :: rest => if String.eqb k' k then Some v else dict_get k rest
  end.

(** The exceptions that reach the modelled code. *)
Inductive Exn : Type :=
| KeyError (k : string)
| IndexError
| AttributeError
| ValueError
| InterfaceError      (* sqlite3: a parameter of unsupported type *)
| OverflowError       (* sqlite3: an integer outside 64 bits *)
| TimeoutError        (* asyncio.TimeoutError *)
| ClientError.        (* aiohttp.ClientError *)

Inductive Res (A : Type) : Type :=
| Ok (a : A)
| Raise (e : Exn).
Arguments Ok {A} a.
Arguments Raise {A} e.

(** ** String methods *)

(** [s.split(sep)] for a one-character separator. *)
Fixpoint split (sep : ascii) (s : string) : list string :=
  match s with
  | EmptyString => [EmptyString]
  | String c rest =>
      if Ascii.eqb c sep then EmptyString :: split sep rest
      else match split sep rest with
           | [] => [String c EmptyString]
           | w :: ws => String c w :: ws
           end
  end.

(** [s.rstrip(chars)]. *)
Definition char_in (c : ascii) (chars : list ascii) : bool :=
  existsb (Ascii.eqb c) chars.

Fixpoint rstrip_chars (chars : list ascii) (s : string) : string :=
  match s with
  | EmptyString => EmptyString
  | String c rest =>
      match rstrip_chars chars rest with
      | EmptyString => if char_in c chars then EmptyString else String c EmptyString
      | rest' => String c rest'
      end
  end.

(** [s.strip()]. A string is its UTF-8 bytes here, and whitespace is
    what [str.isspace] accepts, by its encoding: U+0009 to U+000D,
    U+001C to U+0020; U+0085 and U+00A0 (C2 85, C2 A0); U+1680
    (E1 9A 80); U+2000 to U+200A, U+2028, U+2029, U+202F (E2 80 ..);
    U+205F (E2 81 9F); U+3000 (E3 80 80). *)
Definition space1 (c : ascii) : bool :=
  let n := nat_of_ascii c in
  ((9 <=? n) && (n <=? 13) || (28 <=? n) && (n <=? 32))%nat.

Definition space2 (c1 c2 : ascii) : bool :=
  let n2 := nat_of_ascii c2 in
  ((nat_of_ascii c1 =? 194) && ((n2 =? 133) || (n2 =? 160)))%nat.

Definition space3 (c1 c2 c3 : ascii) : bool :=
  let n1 := nat_of_ascii c1 in
  let n2 := nat_of_ascii c2 in
  let n3 := nat_of_ascii c3 in
  ((n1 =? 225) && (n2 =? 154) && (n3 =? 128)
   || (n1 =? 226) && (n2 =? 128)
      && ((128 <=? n3) && (n3 <=? 138) || (n3 =? 168) || (n3 =? 169) || (n3 =? 175))
   || (n1 =? 226) && (n2 =? 129) && (n3 =? 159)
   || (n1 =? 227) && (n2 =? 128) && (n3 =? 128))%nat.

Fixpoint lstrip (s : string) : string :=
  match s with
  | EmptyString => EmptyString
  | String c1 r1 =>
      if space1 c1 then lstrip r1
      else match r1 with
           | EmptyString => s
           | String c2 r2 =>
               if space2 c1 c2 then lstrip r2
               else match r2 with
                    | EmptyString => s
                    | String c3 r3 => if space3 c1 c2 c3 then lstrip r3 else s
                    end
           end
  end.

(** The string is whitespace throughout. *)
Definition all_space (s : string) : bool := String.eqb (lstrip s) "".

Fixpoint rstrip (s : string) : string :=
  match s with
  | EmptyString => EmptyString
  | String c rest => if all_space s then EmptyString else String c (rstrip rest)
  end.

Definition strip (s : string) : string := rstrip (lstrip s).

(** [sep.join(parts)]. *)
Fixpoint join (sep : string) (parts : list string) : string :=
  match parts with
  | [] => ""
  | [p] => p
  | p :: rest => p +:+ sep +:+ join sep rest
  end.

(** [[text[i:i+n] for i in range(0, len(text), n)]]. Python counts
    code points; in the UTF-8 bytes of the text a code point is a byte
    that is no continuation byte (10xxxxxx), with the continuation bytes
    that follow it. *)
Definition continuation (c : ascii) : bool :=
  let n := nat_of_ascii c in ((128 <=? n) && (n <=? 191))%nat.


(** [s[:n]] and [s[n:]]. *)
Fixpoint take_chars (n : nat) (s : string) : string :=
  match s with
  | EmptyString => EmptyString
  | String c rest =>
      if continuation c then String c (take_chars n rest)
      else match n with
           | O => EmptyString
           | S n' => String c (take_chars n' rest)
           end
  end.

Fixpoint drop_chars (n : nat) (s : string) : string :=
  match s with
  | EmptyString => EmptyString
  | String c rest =>
      if continuation c then drop_chars n rest
      else match n with
           | O => s
           | S n' => drop_chars n' rest
           end
  end.

Fixpoint chunks_fuel (fuel n : nat) (s : string) : list string :=
  match fuel, s with
  | _, EmptyString => []
  | O, _ => []
  | S fuel', _ => take_chars n s :: chunks_fuel fuel' n (drop_chars n s)
  end.

Definition chunks (n : nat) (s : string) : list string :=
  chunks_fuel (String.length s) n s.

(** ** The record store ([init_db])

    Three tables. A row's [id] is its rowid; the file keeps rows in rowid
    order, which is the order in which a scan or an index walk over equal
    keys meets them, so [fetchone] is the first match of the list. *)

Module Users.
Record row : Type := mk {
  id : nat;
  email : string;                 (* TEXT UNIQUE *)
  password : string;
  panel_key : string;
  discord_id : option string;
  nickname : option string;
  created_at : nat                (* DEFAULT CURRENT_TIMESTAMP *)
}.

Definition set_discord_id (d : option string) (r : row) : row :=
  mk (id r) (email r) (password r) (panel_key r) d (nickname r) (created_at r).
End Users.

Module Servers.
Record row : Type := mk {
  id : nat;
  panel_key : string;
  server_uuid : string;
  name : string;
  owner_email : string;
  owner_discord : option string;
  description : option string;
  created_at : nat
}.
End Servers.

Module LogChannels.
Record row : Type := mk {
  id : nat;
  panel_key : string;
  server_id : option string;      (* NULL: the panel-wide channel *)
  channel_id : string             (* UNIQUE(panel_key, server_id) *)
}.

Definition set_channel_id (c : string) (r : row) : row :=
  mk (id r) (panel_key r) (server_id r) c.

(** [panel_key = ? AND server_id = ?] with a non-NULL parameter: NULL
    equals nothing in SQL, itself included. *)
Definition has_key (k s : string) (r : row) : bool :=
  String.eqb (panel_key r) k &&
  match server_id r with
  | Some s' => String.eqb s' s
  | None => false
  end.

(** [panel_key = ? AND server_id IS NULL]. *)
Definition is_default (k : string) (r : row) : bool :=
  String.eqb (panel_key r) k &&
  match server_id r with
  | Some _ => false
  | None => true
  end.
End LogChannels.

(** The [*_seq] fields are SQLite's [sqlite_sequence] entries: the
    largest rowid an INSERT on the table has drawn so far. An INSERT draws
    its rowid before the uniqueness check, so a statement that ends up
    ignored or turned into an update still advances the counter. *)
Record DB : Type := mkDB {
  users : list Users.row;
  users_seq : nat;
  servers : list Servers.row;
  servers_seq : nat;
  log_channels : list LogChannels.row;
  log_channels_seq : nat
}.

Definition empty_db : DB := mkDB [] 0 [] 0 [] 0.

(** ** DB helpers *)

(** [INSERT OR IGNORE INTO users ...]: a row whose email is already
    stored is dropped without an error. *)
Definition save_created_user (now : nat) (panel_key email password : string)
    (discord_id nickname : option string) (db : DB) : DB :=
  let rowid := S (users_seq db) in
  let taken := existsb (fun r => String.eqb (Users.email r) email) (users db) in
  let rows :=
    if taken then users db
    else users db ++
         [Users.mk rowid email password panel_key discord_id nickname now] in
  mkDB rows rowid (servers db) (servers_seq db)
       (log_channels db) (log_channels_seq db).

(** [INSERT INTO servers ...]: no uniqueness constraint, always a new row. *)
Definition save_created_server (now : nat) (panel_key server_uuid name owner_email : string)
    (owner_discord description : option string) (db : DB) : DB :=
  let rowid := S (servers_seq db) in
  mkDB (users db) (users_seq db)
       (servers db ++
        [Servers.mk rowid panel_key server_uuid name owner_email
                    owner_discord description now])
       rowid (log_channels db) (log_channels_seq db).

(** [INSERT INTO log_channels ... ON CONFLICT(panel_key, server_id) DO
    UPDATE SET channel_id=excluded.channel_id]. The conflict is the one of
    [UNIQUE(panel_key, server_id)], for which SQLite holds NULLs distinct
    from each other: a row with a NULL [server_id] conflicts with none. *)
Definition set_log_channel (panel_key : string) (channel_id : Z)
    (server_id : option string) (db : DB) : DB :=
  let rowid := S (log_channels_seq db) in
  let conflict (r : LogChannels.row) : bool :=
    match server_id with
    | Some s => LogChannels.has_key panel_key s r
    | None => false
    end in
  let rows :=
    if existsb conflict (log_channels db)
    then map (fun r => if conflict r
                       then LogChannels.set_channel_id (str channel_id) r
                       else r)
             (log_channels db)
    else log_channels db ++
         [LogChannels.mk rowid panel_key server_id (str channel_id)] in
  mkDB (users db) (users_seq db) (servers db) (servers_seq db) rows rowid.

(** [int(row[0])] raises [ValueError] on a text that is no numeral. *)
Definition int_column (s : string) : Res Z :=
  match int s with
  | Some z => Ok z
  | None => Raise ValueError
  end.

Definition channel_of (r : LogChannels.row) : Res (option Z) :=
  match int_column (LogChannels.channel_id r) with
  | Ok z => Ok (Some z)
  | Raise e => Raise e
  end.

Definition get_log_channel (panel_key : string) (server_id : option string)
    (db : DB) : Res (option Z) :=
  let default :=
    match find (LogChannels.is_default panel_key) (log_channels db) with
    | Some r => channel_of r
    | None => Ok None
    end in
  match server_id with
  | Some s =>
      if negb (String.eqb s "") then        (* if server_id: *)
        match find (LogChannels.has_key panel_key s) (log_channels db) with
        | Some r => channel_of r
        | None => default
        end
      else default
  | None => default
  end.

(** The dict that [find_user_by_discord] returns. *)
Definition user_dict (r : Users.row) : list (string * string) :=
  [("email", Users.email r); ("password", Users.password r);
   ("panel_key", Users.panel_key r)].

Definition find_user_by_discord (discord_id : string) (db : DB)
    : option (list (string * string)) :=
  user_dict <$>
    find (fun r => match Users.discord_id r with
                   | Some d => String.eqb d discord_id
                   | None => false
                   end)
         (users db).

(** [ORDER BY created_at DESC LIMIT ?]: a stable insertion sort, newest
    first, then the first [limit] rows. *)
Fixpoint insert_desc (r : Servers.row) (rs : list Servers.row) : list Servers.row :=
  match rs with
  | [] => [r]
  | r' :: rest =>
      if (Servers.created_at r' <? Servers.created_at r)%nat
      then r :: rs
      else r' :: insert_desc r rest
  end.

Definition order_by_created_desc (rs : list Servers.row) : list Servers.row :=
  foldl (fun acc r => insert_desc r acc) [] rs.

Definition list_saved_servers (limit : nat) (db : DB) : list Servers.row :=
  take limit (order_by_created_desc (servers db)).

(** [UPDATE users SET discord_id = ? WHERE email = ?], the statement
    inside [shareuser_cmd]. *)
Definition update_discord_id (discord_id email : string) (db : DB) : DB :=
  mkDB (map (fun r => if String.eqb (Users.email r) email
                      then Users.set_discord_id (Some discord_id) r
                      else r)
            (users db))
       (users_seq db) (servers db) (servers_seq db)
       (log_channels db) (log_channels_seq db).

(** ** The chat platform and the panel, as the bot sees them *)

Record User : Type := mkUser { user_id : Z }.     (* discord.User, discord.Member *)

Record TextChannel : Type := mkTextChannel { text_channel_id : Z }.

Definition mention (c : TextChannel) : string :=
  "<#" +:+ str (text_channel_id c) +:+ ">".

Record Interaction : Type := mkInteraction {
  user : User;
  channel_id : Z
}.

Record Message : Type := mkMessage {
  author : User;
  channel : Z;
  content : string
}.

(** A formatted string: the literal parts and the interpolated strings
    are [Lit]; [PyStr v] stands for Python's [str(v)] of a JSON value. *)
Inductive Piece : Type :=
| Lit (s : string)
| PyStr (v : Json).

Abbreviation Text := (list Piece).

Record Embed : Type := mkEmbed {
  title : string;
  description : Text;
  color : Z;
  footer : Text
}.

(** What a handler does to the outside. A send that can fail without
    stopping the handler records whether it went through. *)
Inductive Event : Type :=
| HttpRequest (method url : string) (headers : list (string * string))
              (json : option Json)
| ResponseSendMessage (text : Text) (ephemeral : bool)
| ResponseDefer (thinking : bool)
| FollowupSend (text : Text) (ephemeral : bool)
| UserSendEmbed (to : Z) (embed : Embed) (delivered : bool)
| UserSendText (to : Z) (text : Text) (delivered : bool)
| ChannelSend (to : Z) (embed : Embed)
| CtxSend (text : Text).

(** The answer to one request: the connection fails with an exception,
    or a response comes back with a status and, when it parses, a JSON
    body. *)
Inductive HttpReply : Type :=
| Fails (e : Exn)
| Responds (status : Z) (body : option Json).

Record World : Type := mkWorld {
  PANELS : gmap string (gmap string string);   (* config.json: panels *)
  ADMINS : gset string;                        (* config.json: admins *)
  http : string -> string -> list (string * string) -> option Json -> HttpReply;
  user_send_ok : Z -> bool;                    (* the user accepts direct messages *)
  channel_known : Z -> bool;                   (* get_channel or fetch_channel finds it *)
  token_urlsafe : string;                      (* secrets.token_urlsafe(10) *)
  CURRENT_TIMESTAMP : nat;
  inbox : list (nat * Message)                 (* seconds after the prompt, message *)
}.

Definition DEFAULT_TIMEOUT : nat := 60.

(** ** Handlers as store transformers with a log and exceptions *)

Record Out (A : Type) : Type := mkOut {
  result : Res A;
  store : DB;
  events : list Event
}.
Arguments mkOut {A} result store events.
Arguments result {A} o.
Arguments store {A} o.
Arguments events {A} o.

Definition M (A : Type) : Type := DB -> Out A.

Definition ret {A : Type} (a : A) : M A := fun db => mkOut (Ok a) db [].

Definition raise {A : Type} (e : Exn) : M A := fun db => mkOut (Raise e) db [].

(** Sequencing: an exception stops the rest; what was written and sent
    before it stays (every statement commits on its own). *)
Definition bind {A B : Type} (m : M A) (f : A -> M B) : M B :=
  fun db =>
    let o := m db in
    match result o with
    | Ok a =>
        let o' := f a (store o) in
        mkOut (result o') (store o') (events o ++ events o')
    | Raise e => mkOut (Raise e) (store o) (events o)
    end.

(** [try: m except asyncio.TimeoutError: h]. *)
Definition except_timeout {A : Type} (m : M A) (h : M A) : M A :=
  fun db =>
    let o := m db in
    match result o with
    | Raise TimeoutError =>
        let o' := h (store o) in
        mkOut (result o') (store o') (events o ++ events o')
    | _ => o
    end.

Definition emit (e : Event) : M unit := fun db => mkOut (Ok tt) db [e].

Definition execute (stmt : DB -> DB) : M unit := fun db => mkOut (Ok tt) (stmt db) [].

Definition query {A : Type} (q : DB -> A) : M A := fun db => mkOut (Ok (q db)) db [].

Definition lift {A : Type} (r : Res A) : M A := fun db => mkOut r db [].

(** An outcome with earlier events put in front. *)
Definition prepend {A : Type} (evs : list Event) (o : Out A) : Out A :=
  mkOut (result o) (store o) (evs ++ events o).

Declare Scope handler_scope.
Delimit Scope handler_scope with handler.
Notation "x <- m ;; k" := (bind m (fun x => k))
  (at level 100, m at next level, k at level 200, right associativity) : handler_scope.
Notation "m ;; k" := (bind m (fun _ => k))
  (at level 100, k at level 200, right associativity) : handler_scope.
Local Open Scope handler_scope.

(** [xs[0]]. *)
Definition index0 {A : Type} (xs : list A) : Res A :=
  match xs with
  | x :: _ => Ok x
  | [] => Raise IndexError
  end.

(** How sqlite3 binds a Python value to a TEXT column or compares it
    with one. *)
Definition sql_text (v : Json) : Res (option string) :=
  match v with
  | JNull => Ok None
  | JBool b => Ok (Some (if b then "1" else "0"))
  | JInt z =>
      if (- 2 ^ 63 <=? z) && (z <? 2 ^ 63) then Ok (Some (str z))
      else Raise OverflowError
  | JStr s => Ok (Some s)
  | JList _ | JDict _ => Raise InterfaceError
  end.

Section Bot.
Context (W : World).

(** ** HTTP helpers (Pterodactyl) *)

Definition error_dict (code : string) : Json := JDict [("error", JStr code)].

Definition request_headers (api_key : string) : list (string * string) :=
  [("Authorization", "Bearer " +:+ api_key);
   ("Content-Type", "application/json");
   ("Accept", "application/json")].

(** The [async with sess.request(...)] block the two adapters share. *)
Definition session_request (method url : string) (headers : list (string * string))
    (json_body : option Json) : M Json :=
  emit (HttpRequest method url headers json_body) ;;
  match http W method url headers json_body with
  | Fails e => raise e
  | Responds status body =>
      if status =? 204 then ret (JDict [("status", JInt 204)])
      else match body with
           | Some j => ret j
           | None => ret (error_dict ("invalid_json_response_" +:+ str status))
           end
  end.

(** [not panel] for [panel = PANELS.get(panel_key)]: no entry, or an
    entry that is an empty object. *)
Definition not_panel (panel : option (gmap string string)) : bool :=
  match panel with
  | Some p => bool_decide (p = ∅)
  | None => true
  end.

Definition app_api_request (panel_key path method : string)
    (json_body : option Json) : M Json :=
  let panel := PANELS W !! panel_key in
  if not_panel panel then ret (error_dict "panel_not_found")
  else
    let api_key := panel ≫= (.!! "application_api_key") in
    if negb (truthy_str api_key) then ret (error_dict "missing_application_key")
    else
      match panel ≫= (.!! "url") with
      | None => raise (KeyError "url")
      | Some base =>
          let url := rstrip_chars ["/"%char] base +:+ "/api/application" +:+ path in
          session_request method url (request_headers (default "" api_key)) json_body
      end.

Definition client_api_request (panel_key path method : string)
    (json_body : option Json) : M Json :=
  let panel := PANELS W !! panel_key in
  if not_panel panel then ret (error_dict "panel_not_found")
  else
    let api_key := panel ≫= (.!! "api_key") in
    if negb (truthy_str api_key) then ret (error_dict "missing_client_key")
    else
      match panel ≫= (.!! "url") with
      | None => raise (KeyError "url")
      | Some base =>
          let url := rstrip_chars ["/"%char] base +:+ "/api/client" +:+ path in
          session_request method url (request_headers (default "" api_key)) json_body
      end.

(** ** Utilities: embeds, DM, logs *)

Definition is_admin_user (u : User) : bool :=
  bool_decide (str (user_id u) ∈ ADMINS W).

Definition blue : Z := 0x1E90FF.

Definition lightning_embed (title : string) (description : Text) (color : Z) : Embed :=
  mkEmbed title description color [Lit "⚡ Flash Nodes Deploy"].

Definition dm_user_embed (u : User) (title : string) (description : Text)
    (color : Z) : M bool :=
  let ok := user_send_ok W (user_id u) in
  emit (UserSendEmbed (user_id u) (lightning_embed title description color) ok) ;;
  ret ok.

(** [server_id] is whatever object the caller passes: a string or
    [None] nearly everywhere, a value taken from a response in
    [slash_createserver]. [get_log_channel] tests it ([if server_id:])
    before binding it to the query. *)
Definition send_log_embed (panel_key : string) (server_id : Json) (title : string)
    (description : Text) (color : Z) : M unit :=
  sid <- (if truthy server_id then lift (sql_text server_id) else ret None) ;;
  found <- query (get_log_channel panel_key sid) ;;
  channel_id <- lift found ;;
  match channel_id with
  | None => ret tt
  | Some c =>
      if c =? 0 then ret tt                    (* if not channel_id: return *)
      else if channel_known W c then
        let embed :=
          mkEmbed title description color
            [Lit "Panel: "; Lit panel_key; Lit " | Server: ";
             if truthy server_id then PyStr server_id else Lit "N/A"] in
        emit (ChannelSend c embed)             (* a failed send is swallowed *)
      else ret tt
  end.

Definition nl : string := String "010"%char "".

(** [str(member.id)]. *)
Definition member_id (m : User) : string := str (user_id m).

Definition not_authorized : Event :=
  ResponseSendMessage [Lit "❌ Not authorized."] true.

Definition share_permissions : Json :=
  JList [JStr "control.start"; JStr "control.stop"; JStr "control.restart";
         JStr "control.console"; JStr "websocket.connect"].

Definition share_payload (email : string) : Json :=
  JDict [("email", JStr email); ("permissions", share_permissions)].

Fixpoint for_each {A : Type} (xs : list A) (body : A -> M unit) : M unit :=
  match xs with
  | [] => ret tt
  | x :: rest => body x ;; for_each rest body
  end.

(** [v.get(k, d)]; only a dict has the method. *)
Definition py_get (k : string) (d : Json) (v : Json) : Res Json :=
  match v with
  | JDict kvs => Ok (default d (dict_get k kvs))
  | _ => Raise AttributeError
  end.

(** ** Share flows *)

(** [bot.wait_for("message", check=check, timeout=timeout)]: the first
    message of the inbox that arrives before the deadline and passes
    [check]. *)
Definition wait_for (check : Message -> bool) (timeout : nat) : M Message :=
  match find (fun a => (a.1 <? timeout)%nat && check a.2) (inbox W) with
  | Some a => ret a.2
  | None => raise TimeoutError
  end.

(** [ShareView.add_user], for the view that [manageshare_cmd_internal]
    builds for [panel_key] and [server_id]. *)
Definition add_user (panel_key server_id : string)
    (inner_interaction : Interaction) : M unit :=
  emit (ResponseSendMessage [Lit "Reply with the email to invite (60s)."] true) ;;
  let check (m : Message) : bool :=
    (user_id (author m) =? user_id (user inner_interaction)) &&
    (channel m =? channel_id inner_interaction) in
  except_timeout
    (msg <- wait_for check DEFAULT_TIMEOUT ;;
     let email := strip (content msg) in
     let payload := share_payload email in
     r <- client_api_request panel_key ("/servers/" +:+ server_id +:+ "/users")
                             "POST" (Some payload) ;;
     emit (FollowupSend [Lit "Invited `"; Lit email; Lit "` — result: "; PyStr r]
                        true) ;;
     send_log_embed panel_key (JStr server_id) "Subuser Invited"
                    [Lit email; Lit " — "; PyStr r] blue)
    (emit (FollowupSend [Lit "Timed out. Try again."] true)).

Definition shareuser_cmd (panel_key server_id email : string)
    (member : option User) : M unit :=
  let payload := share_payload email in
  r <- client_api_request panel_key ("/servers/" +:+ server_id +:+ "/users")
                          "POST" (Some payload) ;;
  match member with
  | Some m => execute (update_discord_id (member_id m) email)
  | None => ret tt
  end ;;
  emit (CtxSend [Lit "Share requested: "; PyStr r]) ;;
  send_log_embed panel_key (JStr server_id) "Subuser Shared"
                 [Lit email; Lit " — "; PyStr r] blue.

(** ** Slash commands (admin) *)

(** [password or secrets.token_urlsafe(10)]. *)
Definition password_or_token (password : option string) : string :=
  if truthy_str password then default "" password else token_urlsafe W.

Definition createuser_payload (email username firstname lastname pwd : string)
    : Json :=
  JDict [("email", JStr email); ("username", JStr username);
         ("first_name", JStr firstname); ("last_name", JStr lastname);
         ("password", JStr pwd)].

Definition slash_createuser (interaction : Interaction) (panel email : string)
    (password : option string) (firstname lastname : string) (is_admin : bool)
    (nickname : option string) (discord_member : option User) : M unit :=
  if negb (is_admin_user (user interaction)) then emit not_authorized
  else
    emit (ResponseDefer true) ;;
    let pwd := password_or_token password in
    username <- lift (index0 (split "@" email)) ;;
    let payload := createuser_payload email username firstname lastname pwd in
    res <- app_api_request panel "/users" "POST" (Some payload) ;;
    execute (save_created_user (CURRENT_TIMESTAMP W) panel email pwd
               (member_id <$> discord_member) nickname) ;;
    let dm_desc :=
      [Lit "User `"; Lit email; Lit "` created on `"; Lit panel; Lit "`.";
       Lit nl; Lit "Password: ||"; Lit pwd; Lit "||"; Lit nl;
       Lit "Response: `"; PyStr res; Lit "`"] in
    dm_ok <- dm_user_embed (user interaction) "User Created" dm_desc blue ;;
    match discord_member with
    | Some m =>
        dm_user_embed m "Your Panel Account"
          [Lit "Email: `"; Lit email; Lit "`"; Lit nl;
           Lit "Password: ||"; Lit pwd; Lit "||"; Lit nl;
           Lit "Panel: `"; Lit panel; Lit "`"] blue ;;
        ret tt
    | None => ret tt
    end ;;
    send_log_embed panel JNull "User Created" dm_desc blue ;;
    if dm_ok
    then emit (FollowupSend [Lit "✅ User created. Check your DM."] true)
    else emit (FollowupSend [Lit "✅ User created. DM blocked — response: ";
                             PyStr res] true).

(** The uuid that [slash_createserver] reads out of the response. *)
Definition response_uuid (res : Json) : Res Json :=
  match res with
  | JDict _ =>
      match py_get "attributes" (JDict []) res with
      | Raise e => Raise e
      | Ok attrs =>
          match py_get "uuid" JNull attrs with
          | Raise e => Raise e
          | Ok u =>
              if truthy u then Ok u
              else match py_get "object" JNull res with
                   | Raise e => Raise e
                   | Ok o =>
                       if truthy o then
                         match py_get "attributes" (JDict []) o with
                         | Raise e => Raise e
                         | Ok attrs' => py_get "uuid" JNull attrs'
                         end
                       else Ok JNull
                   end
          end
      end
  | _ => Ok JNull
  end.

Definition owner_unresolved : Event :=
  FollowupSend
    [Lit "Provide owner_email or mention owner_discord registered in DB."] true.

Definition slash_createserver (interaction : Interaction) (panel : string)
    (owner_email : option string) (owner_discord : option User) (name : string)
    (egg : Z) (docker_image : string) (memory disk cpu : Z) (startup : string)
    (description : option string) : M unit :=
  if negb (is_admin_user (user interaction)) then emit not_authorized
  else
    emit (ResponseDefer true) ;;
    resolution <-
      match owner_discord with
      | Some m =>
          if negb (truthy_str owner_email) then
            dbuser <- query (find_user_by_discord (str (user_id m))) ;;
            match dbuser with
            | Some ((_ :: _) as d) =>
                ret (dict_get "email" d, Some (str (user_id m)))
            | _ => ret (owner_email, None)
            end
          else ret (owner_email, None)
      | None => ret (owner_email, None)
      end ;;
    let resolved_owner_email : option string := resolution.1 in
    let owner_discord_id : option string := resolution.2 in
    if negb (truthy_str resolved_owner_email) then emit owner_unresolved
    else
      let owner := default "" resolved_owner_email in
      let payload :=
        JDict [("name", JStr name); ("user", JStr owner); ("egg", JInt egg);
               ("docker_image", JStr docker_image); ("startup", JStr startup);
               ("environment", JDict []);
               ("limits", JDict [("memory", JInt memory); ("swap", JInt 0);
                                 ("disk", JInt disk); ("io", JInt 500);
                                 ("cpu", JInt cpu)]);
               ("allocation", JDict [("default", JInt 0)]);
               ("pack", JNull); ("feature_limits", JDict [])] in
      res <- app_api_request panel "/servers" "POST" (Some payload) ;;
      server_uuid <- lift (response_uuid res) ;;
      stored <- lift (sql_text (if truthy server_uuid then server_uuid
                                else JStr "unknown")) ;;
      execute (save_created_server (CURRENT_TIMESTAMP W) panel
                 (default "unknown" stored) name owner owner_discord_id
                 description) ;;
      let dm_desc :=
        [Lit "Server `"; Lit name; Lit "` created for `"; Lit owner; Lit "`";
         Lit nl; Lit "UUID: `"; PyStr server_uuid; Lit "`"; Lit nl;
         Lit "Response: `"; PyStr res; Lit "`"] in
      dm_user_embed (user interaction) "Server Created" dm_desc blue ;;
      match owner_discord, owner_discord_id with
      | Some m, Some _ =>
          dm_user_embed m "Your Server Created" dm_desc blue ;; ret tt
      | _, _ => ret tt
      end ;;
      send_log_embed panel server_uuid "Server Created" dm_desc blue ;;
      emit (FollowupSend
              [Lit "✅ Server creation requested. Details sent to DM."] true).

Definition red : Z := 0xE74C3C.

Definition slash_deleteserver (interaction : Interaction)
    (panel server_uuid : string) : M unit :=
  if negb (is_admin_user (user interaction)) then emit not_authorized
  else
    emit (ResponseDefer true) ;;
    res <- app_api_request panel ("/servers/" +:+ server_uuid) "DELETE" None ;;
    let desc :=
      [Lit "Delete requested for `"; Lit server_uuid; Lit "` — response: ";
       PyStr res] in
    dm_user_embed (user interaction) "Server Delete Requested" desc red ;;
    send_log_embed panel (JStr server_uuid) "Server Delete" desc red ;;
    emit (FollowupSend [Lit "✅ Delete requested. Check your DM."] true).

Definition server_line (r : Servers.row) : string :=
  "#" +:+ str (Z.of_nat (Servers.id r)) +:+ " | panel:" +:+ Servers.panel_key r
  +:+ " | uuid:" +:+ Servers.server_uuid r +:+ " | name:" +:+ Servers.name r
  +:+ " | owner:" +:+ Servers.owner_email r.

Definition slash_viewservers (interaction : Interaction) : M unit :=
  if negb (is_admin_user (user interaction)) then emit not_authorized
  else
    rows <- query (list_saved_servers 200) ;;
    match rows with
    | [] => emit (ResponseSendMessage [Lit "No stored servers."] true)
    | _ =>
        let text := join nl (map server_line rows) in
        let uid := user_id (user interaction) in
        for_each (chunks 1900 text)
          (fun chunk =>
             emit (UserSendText uid [Lit "Servers:"; Lit nl; Lit chunk]
                                (user_send_ok W uid))) ;;
        emit (ResponseSendMessage [Lit "Sent server list to your DMs."] true)
    end.

(** ** Log-channel slash commands *)

Definition slash_setlogchannel (interaction : Interaction) (panel : string)
    (channel : TextChannel) : M unit :=
  if negb (is_admin_user (user interaction)) then emit not_authorized
  else
    execute (set_log_channel panel (text_channel_id channel) None) ;;
    emit (ResponseSendMessage
            [Lit "✅ Panel `"; Lit panel; Lit "` logs set to ";
             Lit (mention channel)] true).

Definition slash_setserverlog (interaction : Interaction) (panel server_id : string)
    (channel : TextChannel) : M unit :=
  if negb (is_admin_user (user interaction)) then emit not_authorized
  else
    execute (set_log_channel panel (text_channel_id channel) (Some server_id)) ;;
    emit (ResponseSendMessage
            [Lit "✅ Server `"; Lit server_id; Lit "` logs set to ";
             Lit (mention channel)] true).

End Bot.

Arguments str : simpl never.

(** ** Vocabulary of the specification *)

(** A scope name resolves to a configured panel when the panel table
    maps it to a configuration that is not the empty object. *)
Definition configured (W : World) (scope : string) (p : gmap string string) : Prop :=
  PANELS W !! scope = Some p ∧ p ≠ ∅.

(** The key of a surface is missing when it is absent or empty. *)
Definition key_missing (p : gmap string string) (key : string) : Prop :=
  p !! key = None ∨ p !! key = Some "".

(** No owner email is given directly. *)
Definition no_owner_email (owner_email : option string) : Prop :=
  owner_email = None ∨ owner_email = Some "".

(** The named chat member leads to no stored account email: every
    account linked to the member (there may be none) has an empty one. *)
Definition no_linked_email (db : DB) (owner_discord : option User) : Prop :=
  ∀ m r, owner_discord = Some m → r ∈ users db →
         Users.discord_id r = Some (str (user_id m)) → Users.email r = "".

(** A message from the actor of the interaction in its channel. *)
Definition from_actor (i : Interaction) (m : Message) : Prop :=
  user_id (author m) = user_id (user i) ∧ channel m = channel_id i.

(** A sink row for the pair (scope, instance id); the id [None] is the
    scope-wide default. *)
Definition keyed (scope : string) (sid : option string) (r : LogChannels.row) : Prop :=
  LogChannels.panel_key r = scope ∧ LogChannels.server_id r = sid.

Definition sink_set (db : DB) (scope : string) (sid : option string) : Prop :=
  ∃ r, r ∈ log_channels db ∧ keyed scope sid r.

(** The earliest stored sink row for the pair. *)
Definition first_sink (db : DB) (scope : string) (sid : option string)
    (r : LogChannels.row) : Prop :=
  ∃ pre post, log_channels db = pre ++ r :: post ∧ keyed scope sid r
              ∧ ∀ x, x ∈ pre → ¬ keyed scope sid x.

(** One [upsertAccount] call and a run of them. *)
Record AccountCall : Type := mkAccountCall {
  call_now : nat;
  call_scope : string;
  call_email : string;
  call_secret : string;
  call_identity : option string;
  call_nickname : option string
}.

Definition upsert_account (db : DB) (c : AccountCall) : DB :=
  save_created_user (call_now c) (call_scope c) (call_email c) (call_secret c)
                    (call_identity c) (call_nickname c) db.

Definition accounts_with (email : string) (db : DB) : list Users.row :=
  filter (λ r, Users.email r = email) (users db).

(** A handler that leaves the store as it found it, and a handler all
    of whose events satisfy [P]. *)
Definition read_only {A : Type} (m : M A) : Prop := ∀ db, store (m db) = db.

Definition sends_only {A : Type} (P : Event → Prop) (m : M A) : Prop :=
  ∀ db, Forall P (events (m db)).

(** An event that is no request, or a request with the body [body]. *)
Definition request_carries (body : option Json) (e : Event) : Prop :=
  ∀ method url headers json, e = HttpRequest method url headers json → json = body.

(** [c] occurs in [s]. *)
Definition has_char (c : ascii) (s : string) : Prop :=
  ∃ a b, s = a +:+ String c b.


(** The account [u] after a link to the chat identity [d]: that field
    is set, every other one is as it was. *)
Definition linked_to (d : string) (u u' : Users.row) : Prop :=
  Users.discord_id u' = Some d ∧ Users.id u' = Users.id u
  ∧ Users.email u' = Users.email u ∧ Users.password u' = Users.password u
  ∧ Users.panel_key u' = Users.panel_key u ∧ Users.nickname u' = Users.nickname u
  ∧ Users.created_at u' = Users.created_at u.

(** A result that reports an adapter error: a dict with an [error] key. *)
Definition is_error_result (res : Json) : Prop :=
  ∃ kvs code, res = JDict kvs ∧ dict_get "error" kvs = Some (JStr code).

(** C1 as the specification words it, for one create-account
    invocation: when the adapter returns an error result the account
    table is as before. *)
Definition saved_only_on_success (W : World) (interaction : Interaction)
    (panel email : string) (password : option string) (firstname lastname : string)
    (is_admin : bool) (nickname : option string) (discord_member : option User)
    (db : DB) : Prop :=
  ∀ username res,
    index0 (split "@" email) = Ok username →
    result (app_api_request W panel "/users" "POST"
              (Some (createuser_payload email username firstname lastname
                       (password_or_token W password))) db) = Ok res →
    is_error_result res →
    users (store (slash_createuser W interaction panel email password firstname
                    lastname is_admin nickname discord_member db))
    = users db.

(** Two configurations to run the handlers on. In the first the panel
    "alpha" has a URL and no key; in the second it has both keys and the
    panel answers every request with status 201 and a small document.
    The user 1 is the only admin. *)
Definition keyless_world : World :=
  mkWorld {[ "alpha" := {[ "url" := "https://panel.example/" ]} ]}
          {[ "1" ]}
          (λ _ _ _ _, Fails ClientError)
          (λ _, true) (λ _, true) "generated" 100 [].

Definition live_world : World :=
  mkWorld {[ "alpha" := {[ "url" := "https://panel.example/";
                           "api_key" := "ptlc_key";
                           "application_api_key" := "ptla_key" ]} ]}
          {[ "1" ]}
          (λ _ _ _ _, Responds 201 (Some (JDict [("object", JStr "user")])))
          (λ _, true) (λ _, true) "generated" 100
          [(5%nat, mkMessage (mkUser 2) 30 "c@x.com");
           (70%nat, mkMessage (mkUser 1) 30 "b@x.com")].

Definition admin_here : Interaction := mkInteraction (mkUser 1) 30.

Definition guest_here : Interaction := mkInteraction (mkUser 2) 30.

(** ** DM slash commands for users *)

Section SelfService.
Context (W : World).

(** [WHERE owner_discord = ?] and [WHERE discord_id = ?]. *)
Definition owned_by (discord_id : string) (r : Servers.row) : bool :=
  match Servers.owner_discord r with
  | Some d => String.eqb d discord_id
  | None => false
  end.

Definition linked_with (discord_id : string) (r : Users.row) : bool :=
  match Users.discord_id r with
  | Some d => String.eqb d discord_id
  | None => false
  end.

Definition owned_line (r : Servers.row) : string :=
  Servers.name r +:+ " (UUID: " +:+ Servers.server_uuid r +:+ ") — Panel: "
  +:+ Servers.panel_key r.

(** The deferral here is [defer(ephemeral=True)]; the event keeps the
    [thinking] flag only. *)
Definition slash_myservers (interaction : Interaction) : M unit :=
  emit (ResponseDefer false) ;;
  rows <- query (λ db, List.filter (owned_by (member_id (user interaction)))
                                   (servers db)) ;;
  match rows with
  | [] =>
      emit (FollowupSend
              [Lit "You have no servers recorded. Attempting to DM details..."]
              true) ;;
      dm_user_embed W (user interaction) "Your Servers"
        [Lit "No servers recorded for your Discord account."] blue ;;
      ret tt
  | _ =>
      let text := join nl (map owned_line rows) in
      ok <- dm_user_embed W (user interaction) "Your Servers" [Lit text] blue ;;
      if ok
      then emit (FollowupSend [Lit "✅ Sent your servers to DM."] true)
      else emit (FollowupSend [Lit "✅ Here are your servers:"; Lit nl; Lit text]
                              true)
  end.

Definition account_text (r : Users.row) : Text :=
  [Lit "Email: "; Lit (Users.email r); Lit nl;
   Lit "Panel: "; Lit (Users.panel_key r); Lit nl;
   Lit "Nickname: ";
   Lit (if truthy_str (Users.nickname r) then default "" (Users.nickname r)
        else "—")].

Definition slash_myaccount (interaction : Interaction) : M unit :=
  row <- query (λ db, find (linked_with (member_id (user interaction)))
                           (users db)) ;;
  match row with
  | None =>
      emit (ResponseSendMessage
              [Lit "No account linked. An admin must create and link a panel user to your Discord."]
              true)
  | Some r =>
      ok <- dm_user_embed W (user interaction) "Your Panel Account"
                          (account_text r) blue ;;
      if ok
      then emit (ResponseSendMessage [Lit "✅ Sent account info to DM."] true)
      else emit (ResponseSendMessage ([Lit "Account info:"; Lit nl] ++ account_text r)
                                     true)
  end.

End SelfService.

(** ** Invariants of the store *)

(** Rowids grow along a table and stay within its counter. *)
Definition ids_ordered (ids : list nat) (seq : nat) : Prop :=
  StronglySorted lt ids ∧ Forall (λ i, (i ≤ seq)%nat) ids.

(** What the schema and the statements keep: emails are unique, a pair
    of a panel and a specific server id has one sink row at most, every
    stored channel is the numeral of an integer, and the rowids of each
    table are ordered. *)
Record store_ok (db : DB) : Prop := mk_store_ok {
  emails_unique : NoDup (Users.email <$> users db);
  sinks_unique :
    ∀ i j r r' s, log_channels db !! i = Some r → log_channels db !! j = Some r' →
                  LogChannels.panel_key r = LogChannels.panel_key r' →
                  LogChannels.server_id r = Some s →
                  LogChannels.server_id r' = Some s → i = j;
  channels_numeric :
    Forall (λ r, ∃ c, LogChannels.channel_id r = str c) (log_channels db);
  users_ids : ids_ordered (Users.id <$> users db) (users_seq db);
  servers_ids : ids_ordered (Servers.id <$> servers db) (servers_seq db);
  log_channels_ids : ids_ordered (LogChannels.id <$> log_channels db)
                                 (log_channels_seq db)
}.

(** A handler that keeps a property of the store. *)
Definition keeps {A : Type} (P : DB → Prop) (m : M A) : Prop :=
  ∀ db, P db → P (store (m db)).

(** The answer of an adapter to a reply of the panel. *)
Definition normalized (reply : HttpReply) : Res Json :=
  match reply with
  | Fails e => Raise e
  | Responds status body =>
      Ok (if status =? 204 then JDict [("status", JInt 204)]
          else match body with
               | Some j => j
               | None => error_dict ("invalid_json_response_" +:+ str status)
               end)
  end.

(** [s] ends with the character [c]. *)
Definition ends_with (c : ascii) (s : string) : Prop :=
  ∃ a, s = a +:+ String c "".

(** The string of [n] copies of [c]. *)
Fixpoint replicate_char (n : nat) (c : ascii) : string :=
  match n with
  | O => ""
  | S n' => String c (replicate_char n' c)
  end.

(** Newest first. *)
Definition newest_first (rows : list Servers.row) : Prop :=
  StronglySorted (λ r r', (Servers.created_at r' ≤ Servers.created_at r)%nat) rows.



(** The request body of [slash_createserver] and the part of the
    handler that follows the resolution of the owner, named so that
    statements can speak of them; [slash_createserver_resolved] shows
    that the handler is the deferral followed by this part. *)
Definition createserver_payload (name owner : string) (egg : Z)
    (docker_image startup : string) (memory disk cpu : Z) : Json :=
  JDict [("name", JStr name); ("user", JStr owner); ("egg", JInt egg);
         ("docker_image", JStr docker_image); ("startup", JStr startup);
         ("environment", JDict []);
         ("limits", JDict [("memory", JInt memory); ("swap", JInt 0);
                           ("disk", JInt disk); ("io", JInt 500);
                           ("cpu", JInt cpu)]);
         ("allocation", JDict [("default", JInt 0)]);
         ("pack", JNull); ("feature_limits", JDict [])].

Definition createserver_after_owner (W : World) (interaction : Interaction)
    (panel owner : string) (owner_discord_id : option string)
    (owner_discord : option User) (name : string) (egg : Z)
    (docker_image : string) (memory disk cpu : Z) (startup : string)
    (description : option string) : M unit :=
  res <- app_api_request W panel "/servers" "POST"
           (Some (createserver_payload name owner egg docker_image startup
                                       memory disk cpu)) ;;
  server_uuid <- lift (response_uuid res) ;;
  stored <- lift (sql_text (if truthy server_uuid then server_uuid
                            else JStr "unknown")) ;;
  execute (save_created_server (CURRENT_TIMESTAMP W) panel
             (default "unknown" stored) name owner owner_discord_id
             description) ;;
  let dm_desc :=
    [Lit "Server `"; Lit name; Lit "` created for `"; Lit owner; Lit "`";
     Lit nl; Lit "UUID: `"; PyStr server_uuid; Lit "`"; Lit nl;
     Lit "Response: `"; PyStr res; Lit "`"] in
  dm_user_embed W (user interaction) "Server Created" dm_desc blue ;;
  match owner_discord, owner_discord_id with
  | Some m, Some _ =>
      dm_user_embed W m "Your Server Created" dm_desc blue ;; ret tt
  | _, _ => ret tt
  end ;;
  send_log_embed W panel server_uuid "Server Created" dm_desc blue ;;
  emit (FollowupSend
          [Lit "✅ Server creation requested. Details sent to DM."] true).


(** An event that is no request to the panel. *)
Definition no_request_event (e : Event) : Prop :=
  ∀ method url headers json, e ≠ HttpRequest method url headers json.

(** A request whose body is a document with the field [k] set to [v]. *)
Definition request_with_field (k : string) (v : Json) (e : Event) : Prop :=
  ∀ method url headers json,
    e = HttpRequest method url headers json →
    ∃ kvs, json = Some (JDict kvs) ∧ dict_get k kvs = Some v.

(** The first message of the inbox that comes in time from the actor. *)
Definition first_reply (W : World) (i : Interaction) (m : Message) : Prop :=
  ∃ pre t post,
    inbox W = pre ++ (t, m) :: post
    ∧ (t < DEFAULT_TIMEOUT)%nat ∧ from_actor i m
    ∧ ∀ t' m', (t', m') ∈ pre → ¬ ((t' < DEFAULT_TIMEOUT)%nat ∧ from_actor i m').


(** A configuration whose panel answers every request with a document
    that carries a uuid; the channel 55 is known, the channel 66 is not. *)
Definition uuid_world : World :=
  mkWorld {[ "alpha" := {[ "url" := "https://panel.example/";
                           "api_key" := "ptlc_key";
                           "application_api_key" := "ptla_key" ]} ]}
          {[ "1" ]}
          (λ _ _ _ _,
             Responds 201 (Some (JDict [("attributes",
                                         JDict [("uuid", JStr "u-1")])])))
          (λ _, true) (λ c, c =? 55) "generated" 100
          [(5%nat, mkMessage (mkUser 2) 30 "c@x.com");
           (20%nat, mkMessage (mkUser 1) 30 " b@x.com ");
           (25%nat, mkMessage (mkUser 1) 30 "d@x.com")].

(** A configuration whose panel has both keys and no URL. *)
Definition urlless_world : World :=
  mkWorld {[ "alpha" := {[ "api_key" := "ptlc_key";
                           "application_api_key" := "ptla_key" ]} ]}
          {[ "1" ]}
          (λ _ _ _ _, Fails ClientError)
          (λ _, true) (λ _, true) "generated" 100 [].

(** ** Basic facts *)

Lemma int_str (z : Z) : int (str z) = Some z.
Proof.
  unfold int, str.
  rewrite NilZero.isi.
  - simpl. by rewrite DecimalZ.of_to.
  - destruct z as [|p|p]; simpl; [done| |done].
    intros [= Hp]. by apply (DecimalPos.Unsigned.to_uint_nonnil p).
  - destruct z as [|p|p]; simpl; [done|done|].
    intros [= Hp]. by apply (DecimalPos.Unsigned.to_uint_nonnil p).
Qed.

Lemma truthy_str_false (o : option string) :
  truthy_str o = false ↔ o = None ∨ o = Some "".
Proof.
  destruct o as [s|]; simpl.
  - rewrite negb_false_iff, String.eqb_eq. split.
    + intros ->. by right.
    + by intros [|[= ->]].
  - split; [by left|done].
Qed.

Lemma not_admin (W : World) (u : User) :
  str (user_id u) ∉ ADMINS W → is_admin_user W u = false.
Proof. intros H. unfold is_admin_user. by apply bool_decide_eq_false. Qed.

Lemma not_panel_spec (W : World) (scope : string) :
  not_panel (PANELS W !! scope) = false ↔ ∃ p, configured W scope p.
Proof.
  unfold configured, not_panel.
  destruct (PANELS W !! scope) as [p|].
  - rewrite bool_decide_eq_false. split.
    + intros Hp. by exists p.
    + by intros (? & [= ->] & ?).
  - split; [done|]. by intros (? & ? & ?).
Qed.

(** ** Laws of sequencing

    Handlers are never unfolded through [bind]; they are stepped with
    the equations below. *)

Lemma prepend_nil {A : Type} (o : Out A) : prepend [] o = o.
Proof. by destruct o. Qed.

Lemma bind_ret {A B : Type} (a : A) (f : A -> M B) (db : DB) :
  bind (ret a) f db = f a db.
Proof. unfold bind, ret. simpl. by destruct (f a db). Qed.

Lemma bind_emit {B : Type} (e : Event) (f : unit -> M B) (db : DB) :
  bind (emit e) f db = prepend [e] (f tt db).
Proof. done. Qed.

Lemma bind_query {A B : Type} (q : DB -> A) (f : A -> M B) (db : DB) :
  bind (query q) f db = f (q db) db.
Proof. unfold bind, query. simpl. by destruct (f (q db) db). Qed.

Lemma bind_execute {B : Type} (stmt : DB -> DB) (f : unit -> M B) (db : DB) :
  bind (execute stmt) f db = f tt (stmt db).
Proof. unfold bind, execute. simpl. by destruct (f tt (stmt db)). Qed.

Lemma bind_lift_ok {A B : Type} (a : A) (f : A -> M B) (db : DB) :
  bind (lift (Ok a)) f db = f a db.
Proof. unfold bind, lift. simpl. by destruct (f a db). Qed.


Lemma bind_raise {A B : Type} (e : Exn) (f : A -> M B) (db : DB) :
  bind (raise e) f db = mkOut (Raise e) db [].
Proof. done. Qed.

Lemma bind_assoc {A B C : Type} (m : M A) (f : A -> M B) (g : B -> M C) (db : DB) :
  bind (bind m f) g db = bind m (fun a => bind (f a) g) db.
Proof.
  unfold bind. destruct (m db) as [[a|e] db1 evs1]; simpl; [|done].
  destruct (f a db1) as [[b|e] db2 evs2]; simpl; [|done].
  by rewrite (assoc_L (++)).
Qed.

(** What a sequence leaves in the store and what it sends, from its
    two halves. *)
Lemma store_bind {A B : Type} (m : M A) (f : A -> M B) (db : DB) :
  store (bind m f db)
  = match result (m db) with
    | Ok a => store (f a (store (m db)))
    | Raise _ => store (m db)
    end.
Proof. unfold bind. by destruct (result (m db)). Qed.

Lemma events_bind {A B : Type} (m : M A) (f : A -> M B) (db : DB) :
  events (bind m f db)
  = match result (m db) with
    | Ok a => events (m db) ++ events (f a (store (m db)))
    | Raise _ => events (m db)
    end.
Proof. unfold bind. by destruct (result (m db)). Qed.

Arguments bind : simpl never.

(** ** The panel adapters *)

(** C6. On either surface, a scope name that does not resolve to a
    configured panel gives the [panel_not_found] error, and a configured
    panel whose key for the surface is missing gives the missing-key
    error of that surface; in both cases no request is sent and the store
    is as before. *)
Theorem C6_adapter_errors_before_network (W : World) (scope path method : string)
    (body : option Json) (db : DB) :
  ((¬ ∃ p, configured W scope p) →
     app_api_request W scope path method body db
       = mkOut (Ok (error_dict "panel_not_found")) db []
     ∧ client_api_request W scope path method body db
       = mkOut (Ok (error_dict "panel_not_found")) db [])
  ∧ (∀ p, configured W scope p →
       (key_missing p "application_api_key" →
          app_api_request W scope path method body db
            = mkOut (Ok (error_dict "missing_application_key")) db [])
       ∧ (key_missing p "api_key" →
            client_api_request W scope path method body db
              = mkOut (Ok (error_dict "missing_client_key")) db [])).
Proof.
  split.
  - intros Hno. unfold app_api_request, client_api_request.
    destruct (not_panel (PANELS W !! scope)) eqn:Hp; [done|].
    apply not_panel_spec in Hp. contradiction.
  - intros p Hc. unfold app_api_request, client_api_request.
    assert (not_panel (PANELS W !! scope) = false) as ->
      by (apply not_panel_spec; eauto).
    destruct Hc as [-> _]. simpl.
    split; intros Hk;
      match goal with
      | |- context [truthy_str ?k] =>
          assert (truthy_str k = false) as -> by (by apply truthy_str_false)
      end; done.
Qed.

(** ** The authorization gate *)

(** C4. When the invoking identity is not in the admin set, each of the
    six admin commands ends at once: the store is the one it started
    from, nothing is sent to the panel, and the only event is the
    ephemeral "Not authorized" reply. *)
Theorem C4_unauthorized_no_effects (W : World) (interaction : Interaction) (db : DB)
    (panel email firstname lastname name docker_image startup server_uuid
       server_id : string)
    (password nickname owner_email description : option string)
    (is_admin : bool) (discord_member owner_discord : option User)
    (egg memory disk cpu : Z) (channel : TextChannel) :
  str (user_id (user interaction)) ∉ ADMINS W →
  let denied := mkOut (Ok tt) db [not_authorized] in
  slash_createuser W interaction panel email password firstname lastname
                   is_admin nickname discord_member db = denied
  ∧ slash_createserver W interaction panel owner_email owner_discord name egg
                       docker_image memory disk cpu startup description db = denied
  ∧ slash_deleteserver W interaction panel server_uuid db = denied
  ∧ slash_viewservers W interaction db = denied
  ∧ slash_setlogchannel W interaction panel channel db = denied
  ∧ slash_setserverlog W interaction panel server_id channel db = denied.
Proof.
  intros Hout denied. apply not_admin in Hout.
  unfold slash_createuser, slash_createserver, slash_deleteserver,
    slash_viewservers, slash_setlogchannel, slash_setserverlog.
  rewrite Hout. simpl. by repeat split.
Qed.

(** ** Owner resolution in create-server *)

Lemma find_user_by_discord_linked (db : DB) (d : string) (u : list (string * string)) :
  find_user_by_discord d db = Some u →
  ∃ r, r ∈ users db ∧ Users.discord_id r = Some d ∧ u = user_dict r.
Proof.
  unfold find_user_by_discord. intros Hu.
  destruct (find _ (users db)) as [r|] eqn:Hf; [|done].
  apply find_some in Hf as [Hin Hd]. injection Hu as <-.
  exists r. split; [by apply list_elem_of_In|]. split; [|done].
  destruct (Users.discord_id r) as [d'|]; [|done].
  apply String.eqb_eq in Hd. by subst.
Qed.

(** C7. A create-server invocation that gives no owner email and whose
    owner member leads to no stored account email stops before the
    adapter is called and before a server row is written: the store is
    unchanged and no request is sent. An authorized invoker gets the
    owner-unresolved reply after the deferral; the gate answers anyone
    else first. *)
Theorem C7_owner_unresolved_before_effects (W : World) (interaction : Interaction)
    (db : DB) (panel name docker_image startup : string)
    (owner_email description : option string) (owner_discord : option User)
    (egg memory disk cpu : Z) :
  no_owner_email owner_email ->
  no_linked_email db owner_discord ->
  slash_createserver W interaction panel owner_email owner_discord name egg
                     docker_image memory disk cpu startup description db
  = mkOut (Ok tt) db
          (if is_admin_user W (user interaction)
           then [ResponseDefer true; owner_unresolved]
           else [not_authorized]).
Proof.
  intros Hemail Hlinked. unfold slash_createserver.
  destruct (is_admin_user W (user interaction)); [|done]. cbn [negb].
  apply truthy_str_false in Hemail as Hfalsy.
  rewrite bind_emit.
  destruct owner_discord as [m|]; last first.
  { rewrite bind_ret. cbn [fst snd]. by rewrite Hfalsy. }
  rewrite Hfalsy. cbn [negb]. rewrite bind_assoc, bind_query.
  destruct (find_user_by_discord (str (user_id m)) db) as [u|] eqn:Hu.
  - apply find_user_by_discord_linked in Hu as (r & Hin & Hd & ->).
    unfold user_dict. cbn [dict_get String.eqb Ascii.eqb Bool.eqb].
    rewrite bind_ret. cbn [fst snd].
    by rewrite (Hlinked m r eq_refl Hin Hd).
  - rewrite bind_ret. cbn [fst snd]. by rewrite Hfalsy.
Qed.

(** ** The share-add session *)

(** C8. When no message from the actor in the channel of the interaction
    arrives before the deadline, the add-share control sends its prompt
    and then the "Timed out" reply, and nothing else: no request goes to
    the panel, the invitation code never runs and the store is untouched. *)
Theorem C8_share_add_timeout (W : World) (panel_key server_id : string)
    (inner_interaction : Interaction) (db : DB) :
  (∀ t m, (t, m) ∈ inbox W → (t < DEFAULT_TIMEOUT)%nat →
          ¬ from_actor inner_interaction m) →
  add_user W panel_key server_id inner_interaction db
  = mkOut (Ok tt) db
          [ResponseSendMessage [Lit "Reply with the email to invite (60s)."] true;
           FollowupSend [Lit "Timed out. Try again."] true].
Proof.
  intros Hquiet. unfold add_user, wait_for.
  destruct (find _ (inbox W)) as [[t m]|] eqn:Hf.
  - exfalso. apply find_some in Hf as [Hin Hok]. simpl in Hok.
    apply andb_prop in Hok as [Ht Hm]. apply andb_prop in Hm as [Ha Hc].
    apply (Hquiet t m).
    + by apply list_elem_of_In.
    + by apply Nat.ltb_lt.
    + split; by apply Z.eqb_eq.
  - rewrite bind_emit. unfold except_timeout. by rewrite bind_raise.
Qed.

(** ** Notification sinks *)

Lemma find_first {A : Type} (f : A → bool) (l : list A) (r : A) :
  find f l = Some r →
  ∃ pre post, l = pre ++ r :: post ∧ f r = true ∧ ∀ x, x ∈ pre → f x = false.
Proof.
  induction l as [|a l IH]; simpl; [done|].
  destruct (f a) eqn:Ha.
  - intros [= ->]. exists [], l. split; [done|]. split; [done|].
    intros x Hx. by apply elem_of_nil in Hx.
  - intros Hr. destruct (IH Hr) as (pre & post & -> & Hfr & Hpre).
    exists (a :: pre), post. split; [done|]. split; [done|].
    intros x [->|Hx]%elem_of_cons; [done|by apply Hpre].
Qed.

Lemma find_absent {A : Type} (f : A → bool) (l : list A) :
  find f l = None → ∀ x, x ∈ l → f x = false.
Proof.
  intros Hf x Hx. apply (find_none f l Hf). by apply list_elem_of_In.
Qed.

Lemma has_key_spec (k s : string) (r : LogChannels.row) :
  LogChannels.has_key k s r = true ↔ keyed k (Some s) r.
Proof.
  unfold LogChannels.has_key, keyed.
  rewrite andb_true_iff, String.eqb_eq.
  destruct (LogChannels.server_id r) as [s'|].
  - rewrite String.eqb_eq. split.
    + by intros [-> ->].
    + by intros [-> [= ->]].
  - split; [by intros [_ ?]|by intros [_ ?]].
Qed.

Lemma is_default_spec (k : string) (r : LogChannels.row) :
  LogChannels.is_default k r = true ↔ keyed k None r.
Proof.
  unfold LogChannels.is_default, keyed.
  rewrite andb_true_iff, String.eqb_eq.
  destruct (LogChannels.server_id r); split; intros [? ?]; done.
Qed.

Lemma find_has_key (db : DB) (k s : string) :
  match find (LogChannels.has_key k s) (log_channels db) with
  | Some r => first_sink db k (Some s) r
  | None => ¬ sink_set db k (Some s)
  end.
Proof.
  destruct (find _ _) as [r|] eqn:Hf.
  - apply find_first in Hf as (pre & post & Hl & Hr & Hpre).
    exists pre, post. split; [done|]. split; [by apply has_key_spec|].
    intros x Hx Hk. apply has_key_spec in Hk. by rewrite (Hpre x Hx) in Hk.
  - intros (r & Hin & Hk). apply has_key_spec in Hk.
    by rewrite (find_absent _ _ Hf r Hin) in Hk.
Qed.

Lemma find_is_default (db : DB) (k : string) :
  match find (LogChannels.is_default k) (log_channels db) with
  | Some r => first_sink db k None r
  | None => ¬ sink_set db k None
  end.
Proof.
  destruct (find _ _) as [r|] eqn:Hf.
  - apply find_first in Hf as (pre & post & Hl & Hr & Hpre).
    exists pre, post. split; [done|]. split; [by apply is_default_spec|].
    intros x Hx Hk. apply is_default_spec in Hk. by rewrite (Hpre x Hx) in Hk.
  - intros (r & Hin & Hk). apply is_default_spec in Hk.
    by rewrite (find_absent _ _ Hf r Hin) in Hk.
Qed.

(** A lookup that goes to the scope-wide default. *)
Lemma get_log_channel_default (db : DB) (scope : string) (server_id : option string) :
  server_id = None ∨ server_id = Some "" ∨ ¬ sink_set db scope server_id →
  get_log_channel scope server_id db
  = match find (LogChannels.is_default scope) (log_channels db) with
    | Some r => channel_of r
    | None => Ok None
    end.
Proof.
  intros Hcase. unfold get_log_channel.
  destruct server_id as [s|]; [|done].
  destruct (String.eqb s "") eqn:Hs; [done|]. simpl.
  destruct Hcase as [|[[= ->]|Hno]]; [done|done|].
  pose proof (find_has_key db scope s) as Hk.
  destruct (find _ _) as [r|]; [|done].
  destruct Hk as (pre & post & Hl & Hr & _). exfalso. apply Hno.
  exists r. split; [|done]. rewrite Hl. apply elem_of_app. right. by left.
Qed.

(** The lookup, case by case. With a non-empty instance id it returns
    the channel of the sink stored for that pair when there is one. Every
    other lookup (no instance id, an empty instance id, or no sink stored
    for the pair) returns the channel of the scope-wide default when one
    is stored, the earliest if several are, and absent when none is. *)
Lemma get_log_channel_cases (db : DB) (scope : string) (server_id : option string) :
  (∀ s, server_id = Some s → s ≠ "" → sink_set db scope (Some s) →
        ∃ r, first_sink db scope (Some s) r
             ∧ get_log_channel scope server_id db = channel_of r)
  ∧ (server_id = None ∨ server_id = Some "" ∨ ¬ sink_set db scope server_id →
     (sink_set db scope None →
        ∃ r, first_sink db scope None r
             ∧ get_log_channel scope server_id db = channel_of r)
     ∧ (¬ sink_set db scope None →
          get_log_channel scope server_id db = Ok None)).
Proof.
  split.
  - intros s -> Hs Hset. unfold get_log_channel.
    apply String.eqb_neq in Hs. rewrite Hs. simpl.
    pose proof (find_has_key db scope s) as Hk.
    destruct (find _ _) as [r|]; [|done]. by exists r.
  - intros Hcase. rewrite (get_log_channel_default _ _ _ Hcase).
    pose proof (find_is_default db scope) as Hd.
    destruct (find _ _) as [r|]; split.
    + intros _. by exists r.
    + intros Hno. exfalso. apply Hno.
      destruct Hd as (pre & post & Hl & Hr & _).
      exists r. split; [|done]. rewrite Hl. apply elem_of_app. right. by left.
    + intros Hset. contradiction.
    + done.
Qed.

(** The channel of a row that [set_log_channel] wrote parses back. *)
Lemma channel_of_str (r : LogChannels.row) (c : Z) :
  LogChannels.channel_id r = str c → channel_of r = Ok (Some c).
Proof. intros Hc. unfold channel_of, int_column. by rewrite Hc, int_str. Qed.

(** The cases at a store with an instance sink and a default. *)
Example get_log_channel_cases_example :
  let db := set_log_channel "alpha" 7 (Some "srv-1")
              (set_log_channel "alpha" 3 None empty_db) in
  (∃ r, first_sink db "alpha" (Some "srv-1") r
        ∧ get_log_channel "alpha" (Some "srv-1") db = channel_of r)
  ∧ (∃ r, first_sink db "alpha" None r
          ∧ get_log_channel "alpha" (Some "srv-2") db = channel_of r)
  ∧ get_log_channel "beta" None db = Ok None.
Proof.
  intros db.
  assert (sink_set db "alpha" (Some "srv-1")) as H1.
  { exists (LogChannels.mk 2 "alpha" (Some "srv-1") "7").
    split; [|done]. apply elem_of_cons. right. by left. }
  assert (sink_set db "alpha" None) as H2.
  { exists (LogChannels.mk 1 "alpha" None "3"). split; [by left|done]. }
  assert (¬ sink_set db "alpha" (Some "srv-2")) as H3.
  { intros (r & Hin & Hp & Hs).
    apply elem_of_cons in Hin as [->|Hin]; [done|].
    apply elem_of_cons in Hin as [->|Hin]; [done|].
    by apply elem_of_nil in Hin. }
  assert (¬ sink_set db "beta" None) as H4.
  { intros (r & Hin & Hp & Hs).
    apply elem_of_cons in Hin as [->|Hin]; [done|].
    apply elem_of_cons in Hin as [->|Hin]; [done|].
    by apply elem_of_nil in Hin. }
  split; [|split].
  - apply (proj1 (get_log_channel_cases db "alpha" (Some "srv-1")) "srv-1");
      [done|done|exact H1].
  - apply (proj2 (get_log_channel_cases db "alpha" (Some "srv-2")));
      [right; right; exact H3|exact H2].
  - apply (proj2 (get_log_channel_cases db "beta" None)); [by left|exact H4].
Defined.

(** ** Setting a sink *)

Lemma find_app_l {A : Type} (f : A → bool) (l l' : list A) (r : A) :
  find f l = Some r → find f (l ++ l') = Some r.
Proof.
  induction l as [|a l IH]; simpl; [done|].
  destruct (f a); [done|apply IH].
Qed.

(** The sibling path: for a specific instance id the statement is the
    upsert it is written to be. A pair that holds a sink has its
    destination replaced in place, no row is added, and the rows of every
    other pair are as they were. *)
Lemma set_log_channel_specific_replaces (db : DB) (scope s : string) (c : Z) :
  sink_set db scope (Some s) →
  log_channels (set_log_channel scope c (Some s) db)
  = map (λ r, if LogChannels.has_key scope s r
              then LogChannels.set_channel_id (str c) r else r)
        (log_channels db).
Proof.
  intros (r & Hin & Hk). unfold set_log_channel. cbn [log_channels].
  destruct (existsb _ (log_channels db)) eqn:Hex; [done|].
  apply not_true_iff_false in Hex. exfalso. apply Hex.
  apply existsb_exists. exists r. split; [by apply list_elem_of_In|].
  by apply has_key_spec.
Qed.

(** C2 at the scope-wide default. Setting the default sink of a scope
    that already has one replaces nothing: the stored row stays, a second
    row with a NULL instance id is appended, and a lookup of the default
    still returns the destination stored first. *)
Theorem C2_default_sink_not_replaced (db : DB) (scope : string) (c : Z) :
  sink_set db scope None →
  log_channels (set_log_channel scope c None db)
  = log_channels db
    ++ [LogChannels.mk (S (log_channels_seq db)) scope None (str c)]
  ∧ get_log_channel scope None (set_log_channel scope c None db)
    = get_log_channel scope None db.
Proof.
  intros Hset.
  assert (log_channels (set_log_channel scope c None db)
          = log_channels db
            ++ [LogChannels.mk (S (log_channels_seq db)) scope None (str c)]) as Hrows.
  { unfold set_log_channel. cbn [log_channels].
    destruct (existsb _ (log_channels db)) eqn:Hex; [|done].
    apply existsb_exists in Hex as (? & _ & ?). done. }
  split; [exact Hrows|].
  unfold get_log_channel. rewrite Hrows.
  pose proof (find_is_default db scope) as Hd.
  destruct (find (LogChannels.is_default scope) (log_channels db)) as [r|] eqn:Hf.
  - by rewrite (find_app_l _ _ _ _ Hf).
  - contradiction.
Qed.

(** The run of [/setlogchannel] twice on a fresh store: two rows, and
    the first channel is the one looked up. *)
Lemma C2_default_sink_not_replaced_witness :
  let db := set_log_channel "alpha" 111 None empty_db in
  log_channels (set_log_channel "alpha" 222 None db)
  = [LogChannels.mk 1 "alpha" None "111"; LogChannels.mk 2 "alpha" None "222"]
  ∧ get_log_channel "alpha" None (set_log_channel "alpha" 222 None db)
    = Ok (Some 111).
Proof.
  intros db.
  assert (sink_set db "alpha" None) as Hset.
  { exists (LogChannels.mk 1 "alpha" None "111"). split; [by left|done]. }
  destruct (C2_default_sink_not_replaced db "alpha" 222 Hset) as [Hrows Hget].
  split.
  - rewrite Hrows. reflexivity.
  - rewrite Hget. reflexivity.
Defined.

(** ** Accounts *)

Lemma existsb_email (email : string) (rows : list Users.row) :
  existsb (λ r, String.eqb (Users.email r) email) rows = true
  ↔ ∃ r, r ∈ rows ∧ Users.email r = email.
Proof.
  rewrite existsb_exists. split.
  - intros (r & Hin & He). exists r. split; [by apply list_elem_of_In|].
    by apply String.eqb_eq.
  - intros (r & Hin & He). exists r. split; [by apply list_elem_of_In|].
    by apply String.eqb_eq.
Qed.

(** A call for an email that is stored leaves the table as it is. *)
Lemma upsert_account_taken (db : DB) (c : AccountCall) :
  (∃ r, r ∈ users db ∧ Users.email r = call_email c) →
  users (upsert_account db c) = users db.
Proof.
  intros Htaken. unfold upsert_account, save_created_user. cbn [users].
  by rewrite (proj2 (existsb_email _ _) Htaken).
Qed.

(** A call never touches the records of another email. *)
Lemma upsert_account_accounts_with (db : DB) (c : AccountCall) (email : string) :
  (∃ r, r ∈ users db ∧ Users.email r = email) →
  accounts_with email (upsert_account db c) = accounts_with email db.
Proof.
  intros Hstored. unfold accounts_with, upsert_account, save_created_user.
  cbn [users].
  destruct (existsb _ (users db)) eqn:Htaken; [done|].
  rewrite filter_app, filter_cons_False, filter_nil;
    [by rewrite (right_id_L [] (++))|].
  cbn [Users.email]. intros <-.
  apply (proj2 (existsb_email _ _)) in Hstored. congruence.
Qed.

Lemma accounts_with_stored (db : DB) (email : string) :
  (∃ r, r ∈ users db ∧ Users.email r = email) ↔ accounts_with email db ≠ [].
Proof.
  unfold accounts_with. split.
  - intros (r & Hin & He) Hnil.
    assert (r ∈ filter (λ r, Users.email r = email) (users db)) as Hr
      by (by apply list_elem_of_filter).
    rewrite Hnil in Hr. by apply elem_of_nil in Hr.
  - intros Hne. destruct (filter _ (users db)) as [|r l] eqn:Hf; [done|].
    assert (r ∈ filter (λ r, Users.email r = email) (users db)) as Hr
      by (rewrite Hf; by left).
    apply list_elem_of_filter in Hr as [He Hin]. by exists r.
Qed.

(** C3. Once an account with an email is stored, no run of
    [upsertAccount] calls, for whatever emails and scopes, changes the
    records of that email: they keep every field, the secret and the
    scope among them, and their number. A further call for that email
    leaves the whole account table as it is. The calls are total; none
    raises. *)
Theorem C3_first_write_wins (db : DB) (email : string) (calls : list AccountCall) :
  (∃ r, r ∈ users db ∧ Users.email r = email) →
  accounts_with email (foldl upsert_account db calls) = accounts_with email db
  ∧ ∀ c, call_email c = email →
         users (upsert_account (foldl upsert_account db calls) c)
         = users (foldl upsert_account db calls).
Proof.
  intros Hstored.
  assert (accounts_with email (foldl upsert_account db calls)
          = accounts_with email db) as Hsame.
  { revert db Hstored. induction calls as [|c calls IH]; intros db Hstored; [done|].
    simpl. rewrite IH.
    - by apply upsert_account_accounts_with.
    - apply accounts_with_stored.
      rewrite (upsert_account_accounts_with _ _ _ Hstored).
      by apply accounts_with_stored. }
  split; [exact Hsame|].
  intros c <-. apply upsert_account_taken.
  apply accounts_with_stored. rewrite Hsame. by apply accounts_with_stored.
Qed.

(** The scenario of the specification: the same email created twice, the
    second time with another password and another scope. *)
Lemma C3_first_write_wins_witness :
  let first := mkAccountCall 10 "alpha" "a@x.com" "first-secret" None None in
  let second := mkAccountCall 20 "beta" "a@x.com" "second-secret" (Some "42") None in
  let db := upsert_account empty_db first in
  accounts_with "a@x.com" (foldl upsert_account db [second])
  = [Users.mk 1 "a@x.com" "first-secret" "alpha" None None 10]
  ∧ users (upsert_account (foldl upsert_account db [second]) second)
    = users (foldl upsert_account db [second]).
Proof.
  intros first second db.
  assert (∃ r, r ∈ users db ∧ Users.email r = "a@x.com") as Hstored.
  { exists (Users.mk 1 "a@x.com" "first-secret" "alpha" None None 10).
    split; [by left|done]. }
  destruct (C3_first_write_wins db "a@x.com" [second] Hstored) as [Hsame Hagain].
  split.
  - rewrite Hsame. reflexivity.
  - by apply Hagain.
Defined.

(** ** The theorems above on concrete runs *)

Lemma keyless_alpha_configured :
  configured keyless_world "alpha" {[ "url" := "https://panel.example/" ]}.
Proof.
  split; [done|]. intros Hempty.
  apply (f_equal (λ p : gmap string string, p !! "url")) in Hempty.
  vm_compute in Hempty. discriminate.
Qed.

(** C6 on the keyless configuration: "ghost" is no scope, "alpha" is one
    with neither key. *)
Lemma C6_adapter_errors_before_network_witness :
  (app_api_request keyless_world "ghost" "/users" "GET" None empty_db
     = mkOut (Ok (error_dict "panel_not_found")) empty_db []
   ∧ client_api_request keyless_world "ghost" "/users" "GET" None empty_db
     = mkOut (Ok (error_dict "panel_not_found")) empty_db [])
  ∧ app_api_request keyless_world "alpha" "/users" "GET" None empty_db
    = mkOut (Ok (error_dict "missing_application_key")) empty_db []
  ∧ client_api_request keyless_world "alpha" "/users" "GET" None empty_db
    = mkOut (Ok (error_dict "missing_client_key")) empty_db [].
Proof.
  split; [|split].
  - apply (proj1 (C6_adapter_errors_before_network
                    keyless_world "ghost" "/users" "GET" None empty_db)).
    intros (p & Hp & _). vm_compute in Hp. discriminate.
  - apply (proj2 (C6_adapter_errors_before_network
                    keyless_world "alpha" "/users" "GET" None empty_db)
                 _ keyless_alpha_configured).
    left. reflexivity.
  - apply (proj2 (C6_adapter_errors_before_network
                    keyless_world "alpha" "/users" "GET" None empty_db)
                 _ keyless_alpha_configured).
    left. reflexivity.
Defined.

Lemma guest_not_admin (W : World) :
  ADMINS W = {[ "1" ]} → str (user_id (user guest_here)) ∉ ADMINS W.
Proof.
  intros ->. intros Hin. apply elem_of_singleton in Hin. vm_compute in Hin.
  discriminate.
Qed.

(** C4 for the user 2, who is no admin. *)
Lemma C4_unauthorized_no_effects_witness :
  (str (user_id (user guest_here)) ∉ ADMINS live_world)
  ∧ slash_createuser live_world guest_here "alpha" "a@x.com" None "A" "B" false
                     None None empty_db
    = mkOut (Ok tt) empty_db [not_authorized]
  ∧ slash_setlogchannel live_world guest_here "alpha" (mkTextChannel 9) empty_db
    = mkOut (Ok tt) empty_db [not_authorized].
Proof.
  pose proof (guest_not_admin live_world eq_refl) as Hguest.
  split; [exact Hguest|].
  pose proof (C4_unauthorized_no_effects live_world guest_here empty_db
                "alpha" "a@x.com" "A" "B" "srv" "img" "run" "uuid" "srv-1"
                None None None None false None None 1 2 3 4 (mkTextChannel 9)
                Hguest) as Hall.
  cbv zeta in Hall. split; [apply Hall|apply Hall].
Defined.

(** C7 for an admin who names no owner at all. *)
Lemma C7_owner_unresolved_before_effects_witness :
  slash_createserver live_world admin_here "alpha" None None "srv" 1 "img"
                     1024 2048 100 "run" None empty_db
  = mkOut (Ok tt) empty_db [ResponseDefer true; owner_unresolved].
Proof.
  rewrite (C7_owner_unresolved_before_effects live_world admin_here empty_db
             "alpha" "srv" "img" "run" None None None 1 1024 2048 100).
  - reflexivity.
  - by left.
  - intros m r Hm. discriminate.
Defined.

(** C8 for the admin in channel 30: the inbox holds a message of
    someone else in time and one of the admin after the deadline. *)
Lemma C8_share_add_timeout_witness :
  add_user live_world "alpha" "srv-1" admin_here empty_db
  = mkOut (Ok tt) empty_db
          [ResponseSendMessage [Lit "Reply with the email to invite (60s)."] true;
           FollowupSend [Lit "Timed out. Try again."] true].
Proof.
  apply C8_share_add_timeout.
  intros t m Hin Ht [Hauthor Hchannel].
  apply elem_of_cons in Hin as [[= -> ->]|Hin]; [discriminate|].
  apply elem_of_cons in Hin as [[= -> ->]|Hin].
  - unfold DEFAULT_TIMEOUT in Ht. lia.
  - by apply elem_of_nil in Hin.
Defined.

(** ** What the helpers leave and send *)

Lemma read_only_ret {A : Type} (a : A) : read_only (ret a).
Proof. done. Qed.

Lemma read_only_raise {A : Type} (e : Exn) : read_only (raise (A := A) e).
Proof. done. Qed.

Lemma read_only_emit (e : Event) : read_only (emit e).
Proof. done. Qed.

Lemma read_only_query {A : Type} (q : DB → A) : read_only (query q).
Proof. done. Qed.

Lemma read_only_lift {A : Type} (r : Res A) : read_only (lift r).
Proof. done. Qed.

Lemma read_only_bind {A B : Type} (m : M A) (f : A → M B) :
  read_only m → (∀ a, read_only (f a)) → read_only (bind m f).
Proof.
  intros Hm Hf db. rewrite store_bind, Hm.
  destruct (result (m db)); [apply Hf|done].
Qed.

Create HintDb handlers discriminated.

#[local] Hint Resolve read_only_ret read_only_raise read_only_emit read_only_query
  read_only_lift : handlers.

Lemma read_only_session_request (W : World) (method url : string)
    (headers : list (string * string)) (body : option Json) :
  read_only (session_request W method url headers body).
Proof.
  unfold session_request. apply read_only_bind; [auto with handlers|].
  intros _. destruct (http W method url headers body) as [e|status j];
    [auto with handlers|].
  destruct (status =? 204); [auto with handlers|].
  destruct j; auto with handlers.
Qed.

Lemma read_only_app_api_request (W : World) (panel_key path method : string)
    (body : option Json) :
  read_only (app_api_request W panel_key path method body).
Proof.
  unfold app_api_request.
  destruct (not_panel _); [auto with handlers|].
  destruct (negb _); [auto with handlers|].
  destruct (_ ≫= _); [apply read_only_session_request|auto with handlers].
Qed.

Lemma read_only_client_api_request (W : World) (panel_key path method : string)
    (body : option Json) :
  read_only (client_api_request W panel_key path method body).
Proof.
  unfold client_api_request.
  destruct (not_panel _); [auto with handlers|].
  destruct (negb _); [auto with handlers|].
  destruct (_ ≫= _); [apply read_only_session_request|auto with handlers].
Qed.

Lemma read_only_dm_user_embed (W : World) (u : User) (title : string)
    (description : Text) (color : Z) :
  read_only (dm_user_embed W u title description color).
Proof.
  unfold dm_user_embed. apply read_only_bind; auto with handlers.
Qed.

Lemma read_only_send_log_embed (W : World) (panel_key : string) (server_id : Json)
    (title : string) (description : Text) (color : Z) :
  read_only (send_log_embed W panel_key server_id title description color).
Proof.
  unfold send_log_embed. apply read_only_bind.
  { destruct (truthy server_id); auto with handlers. }
  intros sid. apply read_only_bind; [auto with handlers|].
  intros found. apply read_only_bind; [auto with handlers|].
  intros [c|]; [|auto with handlers].
  destruct (c =? 0); [auto with handlers|].
  destruct (channel_known W c); auto with handlers.
Qed.

#[local] Hint Resolve read_only_app_api_request read_only_client_api_request
  read_only_dm_user_embed read_only_send_log_embed : handlers.

(** ** Quick share *)

Lemma set_discord_id_linked (d : string) (u : Users.row) :
  linked_to d u (Users.set_discord_id (Some d) u).
Proof. by repeat split. Qed.

Lemma update_discord_id_rows (d email : string) (rows : list Users.row) :
  Forall2 (λ u u', if decide (Users.email u = email)
                   then linked_to d u u' else u' = u)
          rows
          (map (λ r, if String.eqb (Users.email r) email
                     then Users.set_discord_id (Some d) r else r) rows).
Proof.
  induction rows as [|u rows IH]; simpl; constructor; [|exact IH].
  destruct (String.eqb_spec (Users.email u) email) as [He|He];
    destruct (decide (Users.email u = email)); try done;
    apply set_discord_id_linked.
Qed.

(** C10. The quick-share command writes nothing but the link: servers,
    sinks and the three rowid counters are as before, and the accounts
    keep their number and order. With no member named the store is
    unchanged. With a member named, once the invitation call has
    returned (with whatever result), each account whose email is the
    given one has its chat identity set to the member's and every other
    field as before, and each other account is unchanged; when the call
    raises instead, the store is unchanged. *)
Theorem C10_quick_share_frame (W : World) (panel_key server_id email : string)
    (member : option User) (db : DB) :
  let out := shareuser_cmd W panel_key server_id email member db in
  let invited :=
    client_api_request W panel_key ("/servers/" +:+ server_id +:+ "/users")
                       "POST" (Some (share_payload email)) db in
  (servers (store out) = servers db
   ∧ log_channels (store out) = log_channels db
   ∧ users_seq (store out) = users_seq db
   ∧ servers_seq (store out) = servers_seq db
   ∧ log_channels_seq (store out) = log_channels_seq db)
  ∧ (member = None → store out = db)
  ∧ (∀ m, member = Some m →
       match result invited with
       | Ok _ =>
           Forall2 (λ u u', if decide (Users.email u = email)
                            then linked_to (member_id m) u u' else u' = u)
                   (users db) (users (store out))
       | Raise _ => store out = db
       end).
Proof.
  intros out invited.
  assert (store out
          = match result invited, member with
            | Ok _, Some m => update_discord_id (member_id m) email db
            | _, _ => db
            end) as Hstore.
  { unfold out, shareuser_cmd. cbv zeta. rewrite store_bind.
    rewrite read_only_client_api_request. fold invited.
    destruct (result invited) as [r|e]; [|done].
    destruct member as [m|].
    - rewrite bind_execute, bind_emit. simpl.
      apply read_only_send_log_embed.
    - rewrite bind_ret, bind_emit. simpl.
      apply read_only_send_log_embed. }
  split; [|split].
  - rewrite Hstore. destruct (result invited), member; done.
  - intros ->. rewrite Hstore. by destruct (result invited).
  - intros m ->. rewrite Hstore. destruct (result invited); [|done].
    apply update_discord_id_rows.
Qed.

(** C10 on a store with two accounts, for a share to "a@x.com" that
    names the member 7; the panel "ghost" is not configured, so the
    invitation call returns an error result. *)
Lemma C10_quick_share_frame_witness :
  let db := upsert_account
              (upsert_account empty_db
                 (mkAccountCall 1 "alpha" "a@x.com" "pa" None (Some "ann")))
              (mkAccountCall 2 "alpha" "b@x.com" "pb" (Some "8") None) in
  users (store (shareuser_cmd keyless_world "ghost" "srv-1" "a@x.com"
                              (Some (mkUser 7)) db))
  = [Users.mk 1 "a@x.com" "pa" "alpha" (Some "7") (Some "ann") 1;
     Users.mk 2 "b@x.com" "pb" "alpha" (Some "8") None 2]
  ∧ store (shareuser_cmd keyless_world "ghost" "srv-1" "a@x.com" None db) = db.
Proof.
  intros db. split.
  - pose proof (proj2 (proj2 (C10_quick_share_frame keyless_world "ghost" "srv-1"
                                "a@x.com" (Some (mkUser 7)) db))
                  (mkUser 7) eq_refl) as Hrows.
    change (result _) with (Ok (A := Json) (error_dict "panel_not_found")) in Hrows.
    cbv beta iota in Hrows.
    destruct (users (store _)) as [|u1 [|u2 [|u3 rest]]];
      try (by repeat match goal with
                     | H : Forall2 _ _ _ |- _ => inversion H; clear H; subst
                     end).
    apply Forall2_cons_1 in Hrows as [H1 Hrows].
    apply Forall2_cons_1 in Hrows as [H2 _].
    rewrite decide_True in H1 by done. rewrite decide_False in H2 by done.
    destruct H1 as (Hd & Hi & He & Hp & Hk & Hn & Hc), u1. simpl in *.
    by subst.
  - by apply (C10_quick_share_frame keyless_world "ghost" "srv-1" "a@x.com" None db).
Defined.

(** ** The create-account request *)


Lemma sends_only_silent {A : Type} (P : Event → Prop) (m : M A) :
  (∀ db, events (m db) = []) → sends_only P m.
Proof. intros Hm db. by rewrite Hm. Qed.

Lemma sends_only_emit (P : Event → Prop) (e : Event) :
  P e → sends_only P (emit e).
Proof. intros He db. simpl. by constructor. Qed.

Lemma sends_only_bind {A B : Type} (P : Event → Prop) (m : M A) (f : A → M B) :
  sends_only P m → (∀ a, sends_only P (f a)) → sends_only P (bind m f).
Proof.
  intros Hm Hf db. rewrite events_bind.
  destruct (result (m db)); [|apply Hm].
  apply Forall_app. split; [apply Hm|apply Hf].
Qed.

Ltac no_request := intros ? ? ? ? ?; discriminate.

Ltac silent := apply sends_only_silent; intros ?; reflexivity.

Lemma sends_only_session_request (W : World) (method url : string)
    (headers : list (string * string)) (body : option Json) :
  sends_only (request_carries body) (session_request W method url headers body).
Proof.
  unfold session_request. apply sends_only_bind.
  - apply sends_only_emit. by intros ? ? ? ? [= _ _ _ ->].
  - intros _. destruct (http W method url headers body) as [e|status j]; [silent|].
    destruct (status =? 204); [silent|]. destruct j; silent.
Qed.

Lemma sends_only_app_api_request (W : World) (panel_key path method : string)
    (body : option Json) :
  sends_only (request_carries body) (app_api_request W panel_key path method body).
Proof.
  unfold app_api_request.
  destruct (not_panel _); [silent|].
  destruct (negb _); [silent|].
  destruct (_ ≫= _); [apply sends_only_session_request|silent].
Qed.

Lemma sends_only_dm_user_embed (W : World) (body : option Json) (u : User)
    (title : string) (description : Text) (color : Z) :
  sends_only (request_carries body) (dm_user_embed W u title description color).
Proof.
  unfold dm_user_embed. apply sends_only_bind.
  - apply sends_only_emit. no_request.
  - intros _. silent.
Qed.

Lemma sends_only_send_log_embed (W : World) (body : option Json) (panel_key : string)
    (server_id : Json) (title : string) (description : Text) (color : Z) :
  sends_only (request_carries body)
             (send_log_embed W panel_key server_id title description color).
Proof.
  unfold send_log_embed. apply sends_only_bind.
  { destruct (truthy server_id); silent. }
  intros sid. apply sends_only_bind; [silent|].
  intros found. apply sends_only_bind; [silent|].
  intros [c|]; [|silent].
  destruct (c =? 0); [silent|].
  destruct (channel_known W c); [|silent].
  apply sends_only_emit. no_request.
Qed.




(** ** Persisting the created account *)

(** C1, as the code has it. In a create-account invocation by an admin
    the account is written as soon as the adapter call has returned,
    whatever it returned, an error result included: the store is then the
    one that [save_created_user] makes of the initial store for the given
    scope, email, secret, linked identity and nickname (a new record,
    unless the email is already stored). Only when the adapter call
    raises is the store left as it was. *)
Theorem C1_account_saved_on_any_result (W : World) (interaction : Interaction)
    (panel email : string) (password : option string) (firstname lastname : string)
    (is_admin : bool) (nickname : option string) (discord_member : option User)
    (db : DB) (username : string) :
  str (user_id (user interaction)) ∈ ADMINS W →
  index0 (split "@" email) = Ok username →
  let pwd := password_or_token W password in
  let created :=
    app_api_request W panel "/users" "POST"
      (Some (createuser_payload email username firstname lastname pwd)) db in
  let out := slash_createuser W interaction panel email password firstname
                              lastname is_admin nickname discord_member db in
  match result created with
  | Ok _ =>
      store out
      = save_created_user (CURRENT_TIMESTAMP W) panel email pwd
                          (member_id <$> discord_member) nickname db
  | Raise _ => store out = db
  end.
Proof.
  intros Hadmin Hu pwd created out. unfold out, slash_createuser.
  assert (is_admin_user W (user interaction) = true) as ->
    by (by apply bool_decide_eq_true).
  cbn [negb]. rewrite bind_emit. cbn [prepend store].
  rewrite Hu, bind_lift_ok. fold pwd. rewrite store_bind.
  rewrite read_only_app_api_request. fold created.
  destruct (result created) as [res|e]; [|done].
  rewrite bind_execute.
  apply read_only_bind; [apply read_only_dm_user_embed|]. intros dm_ok.
  apply read_only_bind.
  { destruct discord_member; [|apply read_only_ret].
    apply read_only_bind; [apply read_only_dm_user_embed|].
    intros _. apply read_only_ret. }
  intros _. apply read_only_bind; [apply read_only_send_log_embed|].
  intros _. destruct dm_ok; apply read_only_emit.
Qed.

(** C1 on the keyless configuration, where the adapter returns the
    missing-key error: the account is in the store all the same. *)
Lemma C1_account_saved_on_any_result_witness :
  result (app_api_request keyless_world "alpha" "/users" "POST"
            (Some (createuser_payload "a@x.com" "a" "A" "B" "pw")) empty_db)
  = Ok (error_dict "missing_application_key")
  ∧ store (slash_createuser keyless_world admin_here "alpha" "a@x.com" (Some "pw")
                            "A" "B" false None None empty_db)
    = save_created_user 100 "alpha" "a@x.com" "pw" None None empty_db.
Proof.
  split; [reflexivity|].
  assert (str (user_id (user admin_here)) ∈ ADMINS keyless_world) as Hadmin.
  { change (str 1 ∈ ({[ "1" ]} : gset string)). by apply elem_of_singleton_2. }
  exact (C1_account_saved_on_any_result keyless_world admin_here "alpha" "a@x.com"
           (Some "pw") "A" "B" false None None empty_db "a" Hadmin eq_refl).
Defined.

(** C1 as worded fails: the admin creates an account on the scope
    "ghost", which is not configured; the adapter returns the
    [panel_not_found] error and the account table gains a row. *)
Lemma C1_counterexample :
  ¬ saved_only_on_success keyless_world admin_here "ghost" "a@x.com" (Some "pw")
                          "A" "B" false None None empty_db.
Proof.
  intros Hclaim.
  specialize (Hclaim "a" (error_dict "panel_not_found") eq_refl eq_refl).
  assert (is_error_result (error_dict "panel_not_found")) as Herr
    by (by exists [("error", JStr "panel_not_found")], "panel_not_found").
  apply Hclaim in Herr. vm_compute in Herr. discriminate.
Qed.


(** ** The string helpers on Python's own examples *)

Example split_three : split "@" "a@b@c" = ["a"; "b"; "c"].
Proof. reflexivity. Qed.

Example split_empty : split "@" "" = [""].
Proof. reflexivity. Qed.

Example split_leading : split "@" "@x" = [""; "x"].
Proof. reflexivity. Qed.

Example rstrip_slashes : rstrip_chars ["/"%char] "https://p.example//" = "https://p.example".
Proof. reflexivity. Qed.

Example strip_reply : strip "  b@x.com " = "b@x.com".
Proof. reflexivity. Qed.

Example str_negative : str (-120) = "-120" ∧ int "-120" = Some (-120).
Proof. split; reflexivity. Qed.

Example chunks_of_three : chunks 3 "abcdefgh" = ["abc"; "def"; "gh"].
Proof. reflexivity. Qed.

Example chunks_of_accents : chunks 2 "ééééé" = ["éé"; "éé"; "é"].
Proof. reflexivity. Qed.

Example strip_separators :
  strip (String (ascii_of_nat 28) ("b@x.com" +:+ String (ascii_of_nat 31) ""))
  = "b@x.com".
Proof. reflexivity. Qed.

Example strip_unicode_blanks : strip "  b@x.com　 " = "b@x.com".
Proof. reflexivity. Qed.

Example strip_keeps_inner : strip " a b " = "a b".
Proof. reflexivity. Qed.

(** ** The adapters, call by call *)

Lemma session_request_out (W : World) (method url : string)
    (headers : list (string * string)) (body : option Json) (db : DB) :
  session_request W method url headers body db
  = mkOut (normalized (http W method url headers body)) db
          [HttpRequest method url headers body].
Proof.
  unfold session_request. rewrite bind_emit. unfold normalized.
  destruct (http W method url headers body) as [e|status j]; [done|].
  destruct (status =? 204); [done|]. by destruct j.
Qed.

Lemma not_panel_keyed (p : gmap string string) (k v : string) :
  p !! k = Some v → not_panel (Some p) = false.
Proof.
  intros Hk. apply bool_decide_eq_false. intros ->.
  by rewrite lookup_empty in Hk.
Qed.

Lemma truthy_str_some (s : string) : s ≠ "" → truthy_str (Some s) = true.
Proof. intros Hs. simpl. by apply negb_true_iff, String.eqb_neq. Qed.

(** X1. With a panel that has a URL and an application key, the
    elevated adapter makes one attempt: a single request to the URL
    without its trailing slashes followed by [/api/application] and the
    path, with the key as bearer token and the body as given. The result
    is the answer normalized: the 204 marker, the parsed document, the
    invalid-JSON error with the status, or the exception of the
    connection. The store is not touched. *)
Theorem app_api_request_single_attempt (W : World) (panel_key path method : string)
    (body : option Json) (db : DB) (p : gmap string string) (key base : string) :
  PANELS W !! panel_key = Some p →
  p !! "application_api_key" = Some key → key ≠ "" →
  p !! "url" = Some base →
  let url := rstrip_chars ["/"%char] base +:+ "/api/application" +:+ path in
  app_api_request W panel_key path method body db
  = mkOut (normalized (http W method url (request_headers key) body)) db
          [HttpRequest method url (request_headers key) body].
Proof.
  intros Hp Hkey Hne Hurl url. unfold app_api_request.
  rewrite Hp, (not_panel_keyed _ _ _ Hkey). simpl.
  rewrite Hkey, Hurl. rewrite (truthy_str_some _ Hne). simpl.
  apply session_request_out.
Qed.

Lemma live_alpha :
  PANELS live_world !! "alpha"
  = Some ({[ "url" := "https://panel.example/";
             "api_key" := "ptlc_key";
             "application_api_key" := "ptla_key" ]} : gmap string string).
Proof. reflexivity. Qed.

Lemma app_api_request_single_attempt_witness :
  app_api_request live_world "alpha" "/users" "GET" None empty_db
  = mkOut (Ok (JDict [("object", JStr "user")])) empty_db
          [HttpRequest "GET" "https://panel.example/api/application/users"
                       (request_headers "ptla_key") None].
Proof.
  by rewrite (app_api_request_single_attempt live_world "alpha" "/users" "GET" None
                empty_db _ "ptla_key" "https://panel.example/" live_alpha).
Defined.

(** X2. The same for the operator adapter, on [/api/client] with the
    client key. *)
Theorem client_api_request_single_attempt (W : World)
    (panel_key path method : string) (body : option Json) (db : DB)
    (p : gmap string string) (key base : string) :
  PANELS W !! panel_key = Some p →
  p !! "api_key" = Some key → key ≠ "" →
  p !! "url" = Some base →
  let url := rstrip_chars ["/"%char] base +:+ "/api/client" +:+ path in
  client_api_request W panel_key path method body db
  = mkOut (normalized (http W method url (request_headers key) body)) db
          [HttpRequest method url (request_headers key) body].
Proof.
  intros Hp Hkey Hne Hurl url. unfold client_api_request.
  rewrite Hp, (not_panel_keyed _ _ _ Hkey). simpl.
  rewrite Hkey, Hurl. rewrite (truthy_str_some _ Hne). simpl.
  apply session_request_out.
Qed.

Lemma client_api_request_single_attempt_witness :
  client_api_request live_world "alpha" "/servers/s1/power" "POST"
                     (Some (JDict [("signal", JStr "start")])) empty_db
  = mkOut (Ok (JDict [("object", JStr "user")])) empty_db
          [HttpRequest "POST" "https://panel.example/api/client/servers/s1/power"
                       (request_headers "ptlc_key")
                       (Some (JDict [("signal", JStr "start")]))].
Proof.
  by rewrite (client_api_request_single_attempt live_world "alpha"
                "/servers/s1/power" "POST" _ empty_db _ "ptlc_key"
                "https://panel.example/" live_alpha).
Defined.

(** X3. A panel that has the key of the surface but no URL makes the
    adapter raise [KeyError] for ["url"]; nothing has been sent by then. *)
Theorem adapter_missing_url (W : World) (panel_key path method : string)
    (body : option Json) (db : DB) (p : gmap string string) :
  PANELS W !! panel_key = Some p → p !! "url" = None →
  (∀ key, p !! "application_api_key" = Some key → key ≠ "" →
     app_api_request W panel_key path method body db
     = mkOut (Raise (KeyError "url")) db [])
  ∧ (∀ key, p !! "api_key" = Some key → key ≠ "" →
       client_api_request W panel_key path method body db
       = mkOut (Raise (KeyError "url")) db []).
Proof.
  intros Hp Hurl. split; intros key Hkey Hne.
  - unfold app_api_request. rewrite Hp, (not_panel_keyed _ _ _ Hkey). simpl.
    by rewrite Hkey, Hurl, (truthy_str_some _ Hne).
  - unfold client_api_request. rewrite Hp, (not_panel_keyed _ _ _ Hkey). simpl.
    by rewrite Hkey, Hurl, (truthy_str_some _ Hne).
Qed.

Lemma adapter_missing_url_witness :
  app_api_request urlless_world "alpha" "/users" "GET" None empty_db
  = mkOut (Raise (KeyError "url")) empty_db []
  ∧ client_api_request urlless_world "alpha" "/users" "GET" None empty_db
    = mkOut (Raise (KeyError "url")) empty_db [].
Proof.
  pose proof (adapter_missing_url urlless_world "alpha" "/users" "GET" None empty_db
                ({[ "api_key" := "ptlc_key"; "application_api_key" := "ptla_key" ]})
                eq_refl eq_refl) as [Happ Hclient].
  split.
  - by apply (Happ "ptla_key").
  - by apply (Hclient "ptlc_key").
Defined.

(** X4. Whatever the configuration and the panel do, a call of either
    adapter leaves the store alone and sends nothing or one request, with
    the method and the body it was given: there is no second attempt. *)
Theorem adapters_at_most_one_request (W : World) (panel_key path method : string)
    (body : option Json) (db : DB) :
  let at_most_one (o : Out Json) :=
    store o = db
    ∧ (events o = [] ∨ ∃ url headers, events o = [HttpRequest method url headers body]) in
  at_most_one (app_api_request W panel_key path method body db)
  ∧ at_most_one (client_api_request W panel_key path method body db).
Proof.
  split.
  - unfold app_api_request.
    destruct (not_panel _); [by split; [|left]|].
    destruct (negb _); [by split; [|left]|].
    destruct (_ ≫= _); [|by split; [|left]].
    rewrite session_request_out. split; [done|]. right. by eexists _, _.
  - unfold client_api_request.
    destruct (not_panel _); [by split; [|left]|].
    destruct (negb _); [by split; [|left]|].
    destruct (_ ≫= _); [|by split; [|left]].
    rewrite session_request_out. split; [done|]. right. by eexists _, _.
Qed.

(** ** Setting a sink and looking it up *)

Lemma find_app_r {A : Type} (f : A → bool) (l l' : list A) :
  find f l = None → find f (l ++ l') = find f l'.
Proof.
  induction l as [|a l IH]; simpl; [done|].
  destruct (f a); [done|apply IH].
Qed.

Lemma find_map_same {A : Type} (q : A → bool) (f : A → A) (l : list A) :
  (∀ x, q (f x) = q x) →
  find q (map f l) = f <$> find q l.
Proof.
  intros Hq. induction l as [|a l IH]; simpl; [done|].
  rewrite Hq. destruct (q a); [done|apply IH].
Qed.

Lemma find_map_fixed {A : Type} (q : A → bool) (f : A → A) (l : list A) :
  (∀ x, q (f x) = q x) → (∀ x, q x = true → f x = x) →
  find q (map f l) = find q l.
Proof.
  intros Hq Hfix. rewrite (find_map_same q f l Hq).
  destruct (find q l) as [r|] eqn:Hr; [|done].
  apply find_some in Hr as [_ Hr]. simpl. by rewrite Hfix.
Qed.

Lemma has_key_refl (k s : string) (i : nat) (c : string) :
  LogChannels.has_key k s (LogChannels.mk i k (Some s) c) = true.
Proof. unfold LogChannels.has_key. simpl. by rewrite !String.eqb_refl. Qed.

Lemma is_default_refl (k : string) (i : nat) (c : string) :
  LogChannels.is_default k (LogChannels.mk i k None c) = true.
Proof. unfold LogChannels.is_default. simpl. by rewrite String.eqb_refl. Qed.

Lemma find_after_set_specific (db : DB) (scope s : string) (c : Z) :
  ∃ r, find (LogChannels.has_key scope s)
            (log_channels (set_log_channel scope c (Some s) db)) = Some r
       ∧ LogChannels.channel_id r = str c.
Proof.
  unfold set_log_channel. cbn [log_channels].
  destruct (existsb _ (log_channels db)) eqn:Hex.
  - rewrite find_map_same.
    + apply existsb_exists in Hex as (r & Hin & Hr).
      destruct (find _ (log_channels db)) as [r'|] eqn:Hf.
      * simpl. apply find_some in Hf as [_ Hr']. rewrite Hr'. by eexists.
      * by rewrite (find_none _ _ Hf r Hin) in Hr.
    + intros x. destruct (LogChannels.has_key scope s x) eqn:Hx; exact Hx.
  - rewrite find_app_r.
    + simpl. rewrite has_key_refl. by eexists.
    + destruct (find _ (log_channels db)) as [r|] eqn:Hf; [|done].
      apply find_some in Hf as [Hin Hr].
      apply not_true_iff_false in Hex. exfalso. apply Hex.
      apply existsb_exists. by exists r.
Qed.

(** X5. A sink set for a panel and a non-empty server id is the one the
    next lookup for that pair returns, whatever the store held before. *)
Theorem set_then_get_specific (db : DB) (scope s : string) (c : Z) :
  s ≠ "" →
  get_log_channel scope (Some s) (set_log_channel scope c (Some s) db)
  = Ok (Some c).
Proof.
  intros Hs. unfold get_log_channel.
  apply String.eqb_neq in Hs. rewrite Hs. cbn [negb].
  destruct (find_after_set_specific db scope s c) as (r & -> & Hr).
  by apply channel_of_str.
Qed.

Lemma set_then_get_specific_witness :
  get_log_channel "alpha" (Some "srv-1")
    (set_log_channel "alpha" 9 (Some "srv-1")
       (set_log_channel "alpha" 7 (Some "srv-1") empty_db))
  = Ok (Some 9).
Proof. by apply set_then_get_specific. Defined.

Lemma sink_set_after_default (db : DB) (scope scope' s : string) (c : Z) :
  sink_set (set_log_channel scope c None db) scope' (Some s)
  → sink_set db scope' (Some s).
Proof.
  intros (r & Hin & Hk). exists r. split; [|done].
  unfold set_log_channel in Hin. cbn [log_channels] in Hin.
  destruct (existsb _ (log_channels db)) eqn:Hex.
  { apply existsb_exists in Hex as (? & _ & ?). done. }
  apply elem_of_app in Hin as [Hin|Hin]; [done|].
  apply list_elem_of_singleton in Hin as ->. by destruct Hk.
Qed.

(** X6. The first default set for a scope is what every lookup that
    goes to the default returns from then on: the lookup without a server
    id, with an empty one, and with one that has no sink of its own. *)
Theorem set_then_get_default (db : DB) (scope : string) (c : Z)
    (server_id : option string) :
  ¬ sink_set db scope None →
  server_id = None ∨ server_id = Some "" ∨ ¬ sink_set db scope server_id →
  get_log_channel scope server_id (set_log_channel scope c None db) = Ok (Some c).
Proof.
  intros Hfresh Hcase. rewrite get_log_channel_default.
  - pose proof (find_is_default db scope) as Hd.
    unfold set_log_channel. cbn [log_channels].
    destruct (existsb _ (log_channels db)) eqn:Hex.
    { apply existsb_exists in Hex as (? & _ & ?). done. }
    destruct (find _ (log_channels db)) as [r|] eqn:Hf.
    { destruct Hd as (pre & post & Hl & Hr & _). exfalso. apply Hfresh.
      exists r. split; [|done]. rewrite Hl. apply elem_of_app. right. by left. }
    rewrite (find_app_r _ _ _ Hf). simpl. rewrite is_default_refl.
    by apply channel_of_str.
  - destruct Hcase as [|[|Hno]]; [by left|by right; left|].
    destruct server_id as [s|]; [|by left]. right. right.
    intros Hset. apply Hno. by apply sink_set_after_default in Hset.
Qed.

Lemma set_then_get_default_witness :
  get_log_channel "alpha" (Some "srv-2") (set_log_channel "alpha" 4 None empty_db)
  = Ok (Some 4).
Proof.
  apply set_then_get_default.
  - intros (r & Hin & _). by apply elem_of_nil in Hin.
  - right. right. intros (r & Hin & _). by apply elem_of_nil in Hin.
Defined.

Lemma has_key_other (k s k' s' : string) (r : LogChannels.row) :
  k' ≠ k ∨ s' ≠ s →
  LogChannels.has_key k' s' r = true → LogChannels.has_key k s r = false.
Proof.
  intros Hne Hr. apply has_key_spec in Hr as [Hk Hs].
  apply not_true_iff_false. intros [Hk' Hs']%has_key_spec.
  rewrite Hk in Hk'. rewrite Hs in Hs'. injection Hs' as Hs'.
  destruct Hne; congruence.
Qed.

Lemma is_default_not_keyed (k k' s : string) (r : LogChannels.row) :
  LogChannels.is_default k' r = true → LogChannels.has_key k s r = false.
Proof.
  intros [_ Hs]%is_default_spec. unfold LogChannels.has_key. rewrite Hs.
  apply andb_false_r.
Qed.

Lemma find_default_after_set_specific (db : DB) (scope s : string) (c : Z) :
  find (LogChannels.is_default scope)
       (log_channels (set_log_channel scope c (Some s) db))
  = find (LogChannels.is_default scope) (log_channels db).
Proof.
  unfold set_log_channel. cbn [log_channels].
  destruct (existsb _ (log_channels db)).
  - apply find_map_fixed.
    + intros x. destruct (LogChannels.has_key scope s x); reflexivity.
    + intros x Hx. by rewrite (is_default_not_keyed scope scope s x Hx).
  - destruct (find (LogChannels.is_default scope) (log_channels db))
      as [r|] eqn:Hf.
    + by apply find_app_l.
    + rewrite (find_app_r _ _ _ Hf). simpl.
      unfold LogChannels.is_default. simpl. by rewrite andb_false_r.
Qed.

(** C5. The lookup does not return the sink that is set for a pair whose
    instance id is the empty string. [set_log_channel] stores such a
    sink under the key (panel, ''): after it the earliest row of that pair
    carries the channel just set. [get_log_channel] for the same pair
    never reads that row: [if server_id:] is false for '', so the lookup
    answers what the lookup of the panel's default answered before the
    sink was set, absent when there is no default. *)
Theorem C5_empty_id_sink_not_returned (db : DB) (scope : string) (c : Z) :
  let db' := set_log_channel scope c (Some "") db in
  (∃ r, first_sink db' scope (Some "") r ∧ channel_of r = Ok (Some c))
  ∧ get_log_channel scope (Some "") db' = get_log_channel scope None db
  ∧ get_log_channel scope (Some "") (set_log_channel scope c (Some "") empty_db)
    = Ok None.
Proof.
  intros db'. split; [|split].
  - destruct (find_after_set_specific db scope "" c) as (r & Hf & Hc).
    pose proof (find_has_key db' scope "") as Hk. unfold db' in Hk at 1.
    rewrite Hf in Hk. exists r. split; [done|]. by apply channel_of_str.
  - unfold get_log_channel, db'. cbn [String.eqb negb].
    by rewrite find_default_after_set_specific.
  - unfold get_log_channel, set_log_channel, LogChannels.is_default. simpl.
    by rewrite andb_false_r.
Qed.

(** X7. Setting a sink for a panel and a server id leaves the answer of
    every lookup for another panel or another server id as it was.
    Setting the default of a panel leaves every lookup for another panel
    as it was. *)
Theorem set_log_channel_other_lookups (db : DB) (scope scope' : string) (c : Z)
    (server_id' : option string) :
  (∀ s, scope' ≠ scope ∨ server_id' ≠ Some s →
        get_log_channel scope' server_id' (set_log_channel scope c (Some s) db)
        = get_log_channel scope' server_id' db)
  ∧ (scope' ≠ scope →
     get_log_channel scope' server_id' (set_log_channel scope c None db)
     = get_log_channel scope' server_id' db).
Proof.
  split.
  - intros s Hne.
    assert (find (LogChannels.is_default scope')
                 (log_channels (set_log_channel scope c (Some s) db))
            = find (LogChannels.is_default scope') (log_channels db)) as Hdef.
    { unfold set_log_channel. cbn [log_channels].
      destruct (existsb _ (log_channels db)).
      - apply find_map_fixed.
        + intros x. destruct (LogChannels.has_key scope s x); reflexivity.
        + intros x Hx. by rewrite (is_default_not_keyed scope scope' s x Hx).
      - destruct (find (LogChannels.is_default scope') (log_channels db))
          as [r|] eqn:Hf.
        + by apply find_app_l.
        + rewrite (find_app_r _ _ _ Hf). simpl.
          unfold LogChannels.is_default. simpl. by rewrite andb_false_r. }
    unfold get_log_channel. rewrite Hdef.
    destruct server_id' as [s'|]; [|done].
    destruct (negb (String.eqb s' "")); [|done].
    assert (find (LogChannels.has_key scope' s')
                 (log_channels (set_log_channel scope c (Some s) db))
            = find (LogChannels.has_key scope' s') (log_channels db)) as ->; [|done].
    assert (scope' ≠ scope ∨ s' ≠ s) as Hne'.
    { destruct Hne as [?|Hs]; [by left|]. right. congruence. }
    unfold set_log_channel. cbn [log_channels].
    destruct (existsb _ (log_channels db)).
    + apply find_map_fixed.
      * intros x. destruct (LogChannels.has_key scope s x); reflexivity.
      * intros x Hx. by rewrite (has_key_other scope s scope' s' x Hne' Hx).
    + destruct (find (LogChannels.has_key scope' s') (log_channels db))
        as [r|] eqn:Hf.
      * by apply find_app_l.
      * rewrite (find_app_r _ _ _ Hf). simpl.
        destruct (LogChannels.has_key scope' s' _) eqn:Hnew; [|done].
        apply has_key_spec in Hnew as [Hk [= Hs]]. simpl in Hk.
        destruct Hne'; congruence.
  - intros Hne.
    assert (log_channels (set_log_channel scope c None db)
            = log_channels db
              ++ [LogChannels.mk (S (log_channels_seq db)) scope None (str c)]) as Hrows.
    { unfold set_log_channel. cbn [log_channels].
      destruct (existsb _ (log_channels db)) eqn:Hex; [|done].
      apply existsb_exists in Hex as (? & _ & ?). done. }
    unfold get_log_channel. rewrite Hrows.
    assert (∀ q : LogChannels.row → bool,
              q (LogChannels.mk (S (log_channels_seq db)) scope None (str c)) = false →
              find q (log_channels db
                      ++ [LogChannels.mk (S (log_channels_seq db)) scope None (str c)])
              = find q (log_channels db)) as Hq.
    { intros q Hnew. destruct (find q (log_channels db)) as [r|] eqn:Hf.
      - by apply find_app_l.
      - rewrite (find_app_r _ _ _ Hf). simpl. by rewrite Hnew. }
    rewrite (Hq (LogChannels.is_default scope')).
    + destruct server_id' as [s'|]; [|done].
      destruct (negb (String.eqb s' "")); [|done].
      rewrite (Hq (LogChannels.has_key scope' s')); [done|].
      unfold LogChannels.has_key. simpl. apply andb_false_r.
    + unfold LogChannels.is_default. simpl.
      apply andb_false_intro1. by apply String.eqb_neq.
Qed.

Lemma set_log_channel_other_lookups_witness :
  let db := set_log_channel "alpha" 3 None
              (set_log_channel "alpha" 7 (Some "srv-1") empty_db) in
  get_log_channel "alpha" (Some "srv-1") (set_log_channel "alpha" 8 (Some "srv-2") db)
  = Ok (Some 7)
  ∧ get_log_channel "alpha" None (set_log_channel "beta" 8 None db) = Ok (Some 3).
Proof.
  intros db. split.
  - rewrite (proj1 (set_log_channel_other_lookups db "alpha" "alpha" 8
                      (Some "srv-1")) "srv-2"); [reflexivity|].
    right. discriminate.
  - rewrite (proj2 (set_log_channel_other_lookups db "beta" "alpha" 8 None));
      [reflexivity|discriminate].
Defined.

(** ** The invariants of the store *)

Lemma map_fmap {A B : Type} (f : A → B) (l : list A) : map f l = f <$> l.
Proof. induction l as [|a l IH]; simpl; [done|by rewrite IH]. Qed.

Lemma ids_ordered_bump (ids : list nat) (seq : nat) :
  ids_ordered ids seq → ids_ordered ids (S seq).
Proof.
  intros [Hs Hb]. split; [done|].
  eapply Forall_impl; [exact Hb|]. intros i Hi. simpl in Hi. lia.
Qed.

Lemma ids_ordered_snoc (ids : list nat) (seq : nat) :
  ids_ordered ids seq → ids_ordered (ids ++ [S seq]) (S seq).
Proof.
  intros [Hs Hb]. split.
  - apply StronglySorted_app_2.
    + intros i j Hi Hj. apply list_elem_of_singleton in Hj as ->.
      rewrite Forall_forall in Hb. specialize (Hb i Hi). simpl in Hb. lia.
    + done.
    + repeat constructor.
  - apply Forall_app. split.
    + eapply Forall_impl; [exact Hb|]. intros i Hi. simpl in Hi. lia.
    + by repeat constructor.
Qed.

Lemma store_ok_empty : store_ok empty_db.
Proof.
  split; simpl; try (split; constructor); try constructor.
  intros i j r r' s Hi. by rewrite lookup_nil in Hi.
Qed.

Lemma save_created_user_ok (now : nat) (panel_key email password : string)
    (discord_id nickname : option string) (db : DB) :
  store_ok db →
  store_ok (save_created_user now panel_key email password discord_id nickname db).
Proof.
  intros [He Hu Hc Hui Hsi Hli]. unfold save_created_user.
  destruct (existsb _ (users db)) eqn:Htaken.
  - split; simpl; try done. by apply ids_ordered_bump.
  - split; simpl; try done.
    + rewrite fmap_app. apply NoDup_app. split; [done|]. split.
      * intros e Hin Hnew. apply list_elem_of_singleton in Hnew as ->.
        apply list_elem_of_fmap in Hin as (r & Hr & Hin).
        apply not_true_iff_false in Htaken. apply Htaken.
        apply existsb_email. by exists r.
      * apply NoDup_singleton.
    + rewrite fmap_app. by apply ids_ordered_snoc.
Qed.

Lemma save_created_server_ok (now : nat)
    (panel_key server_uuid name owner_email : string)
    (owner_discord description : option string) (db : DB) :
  store_ok db →
  store_ok (save_created_server now panel_key server_uuid name owner_email
                                owner_discord description db).
Proof.
  intros [He Hu Hc Hui Hsi Hli]. unfold save_created_server.
  split; simpl; try done.
  rewrite fmap_app. by apply ids_ordered_snoc.
Qed.

Lemma fmap_map_same {A B : Type} (proj : A → B) (f : A → A) (l : list A) :
  (∀ r, proj (f r) = proj r) → proj <$> map f l = proj <$> l.
Proof.
  intros Hp. induction l as [|a l IH]; [done|].
  cbn [map]. by rewrite !fmap_cons, IH, Hp.
Qed.

Lemma update_discord_id_ok (discord_id email : string) (db : DB) :
  store_ok db → store_ok (update_discord_id discord_id email db).
Proof.
  intros [He Hu Hc Hui Hsi Hli]. unfold update_discord_id.
  split; simpl; try done.
  - rewrite fmap_map_same; [done|].
    intros r. by destruct (String.eqb _ _).
  - rewrite fmap_map_same; [done|].
    intros r. by destruct (String.eqb _ _).
Qed.

Lemma set_log_channel_ok (panel_key : string) (channel_id : Z)
    (server_id : option string) (db : DB) :
  store_ok db → store_ok (set_log_channel panel_key channel_id server_id db).
Proof.
  intros [He Hu Hc Hui Hsi Hli]. unfold set_log_channel.
  set (conflict := λ r : LogChannels.row,
         match server_id with
         | Some s => LogChannels.has_key panel_key s r
         | None => false
         end).
  set (f := λ r, if conflict r
                 then LogChannels.set_channel_id (str channel_id) r else r).
  assert (∀ r, LogChannels.panel_key (f r) = LogChannels.panel_key r
               ∧ LogChannels.server_id (f r) = LogChannels.server_id r
               ∧ LogChannels.id (f r) = LogChannels.id r) as Hf.
  { intros r. unfold f. by destruct (conflict r). }
  destruct (existsb conflict (log_channels db)) eqn:Hex.
  - split; simpl; try done.
    + intros i j r r' s Hi Hj Hk Hs Hs'.
      rewrite map_fmap, list_lookup_fmap in Hi, Hj.
      destruct (log_channels db !! i) as [x|] eqn:Hx; [|done].
      destruct (log_channels db !! j) as [x'|] eqn:Hx'; [|done].
      simpl in Hi, Hj. injection Hi as <-. injection Hj as <-.
      apply (Hu i j x x' s Hx Hx');
        repeat match goal with
               | H : context [if ?b then _ else _] |- _ => destruct b
               end; done.
    + rewrite map_fmap. apply Forall_fmap.
      eapply Forall_impl; [exact Hc|]. intros r [c Hr]. simpl. unfold f.
      match goal with |- context [if ?b then _ else _] => destruct b end;
        [by exists channel_id|by exists c].
    + rewrite fmap_map_same; [by apply ids_ordered_bump|].
      intros r. apply Hf.
  - split; simpl; try done.
    + intros i j r r' s Hi Hj Hk Hs Hs'.
      apply lookup_snoc_Some in Hi as [[Hi Hr]|[Hi <-]];
        apply lookup_snoc_Some in Hj as [[Hj Hr']|[Hj <-]].
      * by apply (Hu i j r r' s).
      * exfalso. simpl in *. subst server_id.
        apply not_true_iff_false in Hex. apply Hex.
        apply existsb_exists. exists r. split.
        -- apply list_elem_of_In, list_elem_of_lookup. by exists i.
        -- unfold conflict. by apply has_key_spec.
      * exfalso. simpl in *. subst server_id.
        apply not_true_iff_false in Hex. apply Hex.
        apply existsb_exists. exists r'. split.
        -- apply list_elem_of_In, list_elem_of_lookup. by exists j.
        -- unfold conflict. by apply has_key_spec.
      * congruence.
    + apply Forall_app. split; [done|].
      constructor; [by exists channel_id|constructor].
    + rewrite fmap_app. by apply ids_ordered_snoc.
Qed.

(** X8. The statements of the bot keep the store well formed: after
    any of them, emails are still unique, a panel and a specific server
    id still have one sink row at most, every stored channel is still a
    numeral, and rowids are still increasing and within their counters. *)
Theorem statements_keep_store_ok (db : DB) :
  store_ok db →
  (∀ now panel_key email password discord_id nickname,
     store_ok (save_created_user now panel_key email password discord_id
                                 nickname db))
  ∧ (∀ now panel_key server_uuid name owner_email owner_discord description,
       store_ok (save_created_server now panel_key server_uuid name owner_email
                                     owner_discord description db))
  ∧ (∀ panel_key channel_id server_id,
       store_ok (set_log_channel panel_key channel_id server_id db))
  ∧ (∀ discord_id email, store_ok (update_discord_id discord_id email db)).
Proof.
  intros Hok. split; [|split; [|split]]; intros.
  - by apply save_created_user_ok.
  - by apply save_created_server_ok.
  - by apply set_log_channel_ok.
  - by apply update_discord_id_ok.
Qed.

Lemma statements_keep_store_ok_witness :
  store_ok (set_log_channel "alpha" 7 (Some "srv-1")
              (save_created_user 1 "alpha" "a@x.com" "pw" None None empty_db)).
Proof.
  apply (statements_keep_store_ok _
           (proj1 (statements_keep_store_ok empty_db store_ok_empty)
                  1%nat "alpha" "a@x.com" "pw" None None)).
Defined.

Lemma get_log_channel_numeric (db : DB) (scope : string) (server_id : option string) :
  Forall (λ r, ∃ c, LogChannels.channel_id r = str c) (log_channels db) →
  ∃ found, get_log_channel scope server_id db = Ok found.
Proof.
  intros Hc.
  assert (∀ q, match find q (log_channels db) with
               | Some r => ∃ c, channel_of r = Ok (Some c)
               | None => True
               end) as Hrow.
  { intros q. destruct (find q (log_channels db)) as [r|] eqn:Hf; [|done].
    apply find_some in Hf as [Hin _]. rewrite Forall_forall in Hc.
    destruct (Hc r (proj2 (list_elem_of_In _ _) Hin)) as [c Hr].
    exists c. by apply channel_of_str. }
  unfold get_log_channel.
  pose proof (Hrow (LogChannels.is_default scope)) as Hd.
  assert (∃ found,
            match find (LogChannels.is_default scope) (log_channels db) with
            | Some r => channel_of r
            | None => Ok None
            end = Ok found) as Hdefault.
  { destruct (find (LogChannels.is_default scope) (log_channels db)).
    - destruct Hd as [c ->]. by eexists.
    - by eexists. }
  destruct server_id as [s|]; [|done].
  destruct (negb (String.eqb s "")); [|done].
  pose proof (Hrow (LogChannels.has_key scope s)) as Hs.
  destruct (find (LogChannels.has_key scope s) (log_channels db)); [|done].
  destruct Hs as [c ->]. by eexists.
Qed.

(** X9. On a well-formed store a sink lookup never raises: it returns
    a channel or nothing. *)
Theorem get_log_channel_total (db : DB) (scope : string) (server_id : option string) :
  store_ok db → ∃ found, get_log_channel scope server_id db = Ok found.
Proof.
  intros Hok. apply get_log_channel_numeric.
  by destruct Hok.
Qed.

Lemma get_log_channel_total_witness :
  ∃ found, get_log_channel "alpha" (Some "srv-1")
             (set_log_channel "alpha" 7 (Some "srv-1") empty_db) = Ok found.
Proof.
  apply get_log_channel_total.
  apply set_log_channel_ok, store_ok_empty.
Defined.

(** ** Accounts: storing, linking, finding *)

(** X10. The first write for an email stores one record, with the
    secret, scope, identity and nickname of that call and the next rowid. *)
Theorem first_write_stored (now : nat) (panel_key email password : string)
    (discord_id nickname : option string) (db : DB) :
  (∀ r, r ∈ users db → Users.email r ≠ email) →
  accounts_with email
    (save_created_user now panel_key email password discord_id nickname db)
  = [Users.mk (S (users_seq db)) email password panel_key discord_id nickname now].
Proof.
  intros Hfresh. unfold accounts_with, save_created_user. cbn [users].
  destruct (existsb _ (users db)) eqn:Htaken.
  { apply existsb_email in Htaken as (r & Hin & He). by destruct (Hfresh r Hin). }
  rewrite filter_app.
  assert (filter (λ r, Users.email r = email) (users db) = []) as ->.
  { revert Hfresh. generalize (users db). intros l Hfresh.
    induction l as [|r l IH]; [done|].
    rewrite filter_cons_False.
    - apply IH. intros x Hx. apply Hfresh. by right.
    - apply Hfresh. by left. }
  by rewrite filter_cons_True.
Qed.

Lemma first_write_stored_witness :
  accounts_with "a@x.com"
    (save_created_user 5 "alpha" "a@x.com" "pw" (Some "7") None empty_db)
  = [Users.mk 1 "a@x.com" "pw" "alpha" (Some "7") None 5].
Proof.
  apply first_write_stored. intros r Hin. by apply elem_of_nil in Hin.
Defined.

Lemma find_linked_none (d : string) (l : list Users.row) :
  (∀ r, r ∈ l → Users.discord_id r ≠ Some d) →
  find (λ r, match Users.discord_id r with
             | Some d' => String.eqb d' d
             | None => false
             end) l = None.
Proof.
  intros Hno. induction l as [|a l IH]; simpl; [done|].
  destruct (Users.discord_id a) as [d'|] eqn:Hd.
  - destruct (String.eqb_spec d' d) as [->|_].
    + destruct (Hno a); [by left|done].
    + apply IH. intros r Hr. apply Hno. by right.
  - apply IH. intros r Hr. apply Hno. by right.
Qed.

(** X11. An account created together with a chat identity that no
    stored account carries yet, for an email that is not stored yet, is
    the account that a lookup by that identity returns: its email, its
    secret and its scope. *)
Theorem created_account_found (now : nat) (panel_key email password d : string)
    (nickname : option string) (db : DB) :
  (∀ r, r ∈ users db → Users.email r ≠ email) →
  (∀ r, r ∈ users db → Users.discord_id r ≠ Some d) →
  find_user_by_discord d
    (save_created_user now panel_key email password (Some d) nickname db)
  = Some [("email", email); ("password", password); ("panel_key", panel_key)].
Proof.
  intros Hfresh Hunlinked. unfold find_user_by_discord, save_created_user.
  cbn [users].
  destruct (existsb _ (users db)) eqn:Htaken.
  { apply existsb_email in Htaken as (r & Hin & He). by destruct (Hfresh r Hin). }
  rewrite find_app_r by (by apply find_linked_none).
  simpl. by rewrite String.eqb_refl.
Qed.

Lemma created_account_found_witness :
  find_user_by_discord "7"
    (save_created_user 5 "alpha" "a@x.com" "pw" (Some "7") None empty_db)
  = Some [("email", "a@x.com"); ("password", "pw"); ("panel_key", "alpha")].
Proof.
  apply created_account_found; intros r Hin; by apply elem_of_nil in Hin.
Defined.

(** X12. In a well-formed store, linking the account of an email to a
    chat identity that no account carries yet makes the lookup by that
    identity return that account. *)
Theorem linked_account_found (d email : string) (db : DB) (r : Users.row) :
  store_ok db →
  r ∈ users db → Users.email r = email →
  (∀ x, x ∈ users db → Users.discord_id x ≠ Some d) →
  find_user_by_discord d (update_discord_id d email db) = Some (user_dict r).
Proof.
  intros [Hnodup _ _ _ _ _] Hin He Hunlinked.
  unfold find_user_by_discord, update_discord_id. cbn [users].
  revert Hnodup Hin Hunlinked. generalize (users db). intros l.
  induction l as [|a l IH]; intros Hnodup Hin Hunlinked;
    [by apply elem_of_nil in Hin|].
  rewrite fmap_cons in Hnodup. apply NoDup_cons in Hnodup as [Ha Hl].
  cbn [map find]. apply elem_of_cons in Hin as [<-|Hin].
  - rewrite He, String.eqb_refl. simpl. by rewrite String.eqb_refl.
  - destruct (String.eqb_spec (Users.email a) email) as [Hae|Hae].
    + exfalso. apply Ha. apply list_elem_of_fmap. exists r. split; [congruence|done].
    + destruct (Users.discord_id a) as [d'|] eqn:Hd.
      * destruct (String.eqb_spec d' d) as [->|_].
        -- destruct (Hunlinked a); [by left|done].
        -- apply IH; [done|done|]. intros x Hx. apply Hunlinked. by right.
      * apply IH; [done|done|]. intros x Hx. apply Hunlinked. by right.
Qed.

Lemma linked_account_found_witness :
  let db := save_created_user 5 "alpha" "a@x.com" "pw" None None empty_db in
  find_user_by_discord "7" (update_discord_id "7" "a@x.com" db)
  = Some [("email", "a@x.com"); ("password", "pw"); ("panel_key", "alpha")].
Proof.
  intros db.
  apply (linked_account_found "7" "a@x.com" db
           (Users.mk 1 "a@x.com" "pw" "alpha" None None 5)).
  - apply save_created_user_ok, store_ok_empty.
  - by left.
  - done.
  - intros x Hx. apply list_elem_of_singleton in Hx as ->. done.
Defined.

(** ** The server listing *)

Lemma insert_desc_perm (r : Servers.row) (rs : list Servers.row) :
  insert_desc r rs ≡ₚ r :: rs.
Proof.
  induction rs as [|r' rs IH]; simpl; [done|].
  destruct (Servers.created_at r' <? Servers.created_at r)%nat; [done|].
  rewrite IH. apply Permutation_swap.
Qed.

Lemma insert_desc_sorted (r : Servers.row) (rs : list Servers.row) :
  newest_first rs → newest_first (insert_desc r rs).
Proof.
  unfold newest_first. induction rs as [|r' rs IH]; simpl; intros Hs.
  - repeat constructor.
  - apply StronglySorted_cons in Hs as [Hall Hs].
    destruct (Nat.ltb_spec (Servers.created_at r') (Servers.created_at r)) as [Hlt|Hge].
    + apply StronglySorted_cons. split.
      * constructor; [lia|].
        eapply Forall_impl; [exact Hall|]. intros x Hx. simpl in Hx. lia.
      * by apply StronglySorted_cons.
    + apply StronglySorted_cons. split; [|by apply IH].
      rewrite (insert_desc_perm r rs). by constructor.
Qed.

Lemma order_by_created_desc_spec (rs : list Servers.row) :
  order_by_created_desc rs ≡ₚ rs ∧ newest_first (order_by_created_desc rs).
Proof.
  unfold order_by_created_desc.
  assert (∀ acc, newest_first acc →
                 foldl (λ acc r, insert_desc r acc) acc rs ≡ₚ acc ++ rs
                 ∧ newest_first (foldl (λ acc r, insert_desc r acc) acc rs)) as Hgen.
  { induction rs as [|r rs IH]; intros acc Hacc; simpl.
    - by rewrite (right_id_L [] (++)).
    - destruct (IH (insert_desc r acc) (insert_desc_sorted r acc Hacc)) as [Hp Hs].
      split; [|done]. rewrite Hp, insert_desc_perm. simpl.
      apply Permutation_middle. }
  apply (Hgen []). constructor.
Qed.

(** X13. The server listing is newest first, holds rows of the servers
    table only, each as often as the table does at most, and has as many
    rows as the limit allows: the smaller of the limit and the size of
    the table. *)
Theorem list_saved_servers_spec (limit : nat) (db : DB) :
  newest_first (list_saved_servers limit db)
  ∧ list_saved_servers limit db ⊆+ servers db
  ∧ length (list_saved_servers limit db) = (limit `min` length (servers db))%nat.
Proof.
  unfold list_saved_servers.
  destruct (order_by_created_desc_spec (servers db)) as [Hp Hs].
  split; [|split].
  - unfold newest_first in *.
    rewrite <- (take_drop limit (order_by_created_desc (servers db))) in Hs.
    by apply StronglySorted_app_1_l in Hs.
  - rewrite <- Hp at 2. apply sublist_submseteq, sublist_take.
  - by rewrite length_take, Hp.
Qed.

(** ** Strings *)

Lemma app_String (c : ascii) (a b : string) :
  String c a +:+ b = String c (a +:+ b).
Proof. done. Qed.










Lemma join_cons (sep w : string) (ws : list string) (c : ascii) :
  join sep (String c w :: ws) = String c (join sep (w :: ws)).
Proof. by destruct ws. Qed.

(** Splitting at a character and joining with it again gives the
    string back, and no piece of the split holds the character. *)
Theorem split_join (c : ascii) (s : string) :
  join (String c "") (split c s) = s
  ∧ Forall (λ w, ¬ has_char c w) (split c s).
Proof.
  induction s as [|x s [IHj IHf]]; simpl.
  - split; [done|]. constructor; [|done].
    intros ([|? ?] & b & Hab); discriminate.
  - destruct (Ascii.eqb_spec x c) as [->|Hx].
    + split.
      * destruct (split c s) as [|w ws] eqn:Hs; [by destruct s|].
        simpl. simpl in IHj. by rewrite IHj.
      * constructor; [|done]. intros ([|? ?] & b & Hab); discriminate.
    + destruct (split c s) as [|w ws] eqn:Hs.
      { destruct s; simpl in Hs; [done|].
        destruct (Ascii.eqb _ _); [done|]. by destruct (split c s). }
      split.
      * by rewrite join_cons, IHj.
      * apply Forall_cons in IHf as [Hw Hws]. constructor; [|done].
        intros ([|y a] & b & Hab); simpl in Hab.
        -- injection Hab as -> _. done.
        -- injection Hab as _ Hu. apply Hw. by exists a, b.
Qed.

Lemma rstrip_chars_nil (c : ascii) (s : string) :
  rstrip_chars [c] s = "" → ∃ n, s = replicate_char n c.
Proof.
  induction s as [|x s IH]; simpl; [by exists 0%nat|].
  destruct (rstrip_chars [c] s) eqn:Hr; [|done].
  unfold char_in. simpl. rewrite orb_false_r.
  destruct (Ascii.eqb_spec x c) as [->|_]; [|done].
  intros _. destruct (IH eq_refl) as [n ->]. by exists (S n).
Qed.

(** Stripping one character from the right takes away a run of
    that character at the end and nothing else: the string is the result
    followed by copies of the character, and the result does not end with
    it. *)
Theorem rstrip_chars_spec (c : ascii) (s : string) :
  (∃ n, s = rstrip_chars [c] s +:+ replicate_char n c)
  ∧ ¬ ends_with c (rstrip_chars [c] s).
Proof.
  induction s as [|x s [[n IHn] IHe]]; simpl.
  - split; [by exists 0%nat|]. intros ([|? ?] & Ha); discriminate.
  - destruct (rstrip_chars [c] s) as [|y r] eqn:Hr.
    + destruct (rstrip_chars_nil c s Hr) as [m Hm].
      unfold char_in. simpl. rewrite orb_false_r.
      destruct (Ascii.eqb_spec x c) as [->|Hx].
      * split; [exists (S m); simpl; by rewrite Hm|].
        intros ([|? ?] & Ha); discriminate.
      * split; [exists m; simpl; by rewrite Hm|].
        intros ([|z a] & Ha).
        -- injection Ha as Hxc. by destruct Hx.
        -- injection Ha as _ Ha. destruct a; discriminate.
    + split.
      * exists n. rewrite app_String. by rewrite <- IHn.
      * intros (a & Ha). apply IHe. destruct a as [|z a]; [discriminate|].
        simpl in Ha. injection Ha as _ Ha. by exists a.
Qed.

(** ** Handlers that only read, and handlers that never call the panel *)

Lemma sends_only_weaken {A : Type} (P Q : Event → Prop) (m : M A) :
  (∀ e, P e → Q e) → sends_only P m → sends_only Q m.
Proof. intros HPQ Hm db. eapply Forall_impl; [apply Hm|exact HPQ]. Qed.

Lemma no_request_carries (body : option Json) (e : Event) :
  no_request_event e → request_carries body e.
Proof. intros Hno method url headers json ->. by destruct (Hno method url headers json). Qed.

Ltac not_a_request := intros ? ? ? ?; discriminate.

Lemma quiet_dm_user_embed (W : World) (u : User) (title : string)
    (description : Text) (color : Z) :
  sends_only no_request_event (dm_user_embed W u title description color).
Proof.
  unfold dm_user_embed. apply sends_only_bind.
  - apply sends_only_emit. not_a_request.
  - intros _. silent.
Qed.

Lemma quiet_send_log_embed (W : World) (panel_key : string) (server_id : Json)
    (title : string) (description : Text) (color : Z) :
  sends_only no_request_event
             (send_log_embed W panel_key server_id title description color).
Proof.
  unfold send_log_embed. apply sends_only_bind.
  { destruct (truthy server_id); silent. }
  intros sid. apply sends_only_bind; [silent|].
  intros found. apply sends_only_bind; [silent|].
  intros [c|]; [|silent].
  destruct (c =? 0); [silent|].
  destruct (channel_known W c); [|silent].
  apply sends_only_emit. not_a_request.
Qed.

Lemma read_only_for_each {A : Type} (xs : list A) (body : A → M unit) :
  (∀ x, read_only (body x)) → read_only (for_each xs body).
Proof.
  intros Hbody. induction xs as [|x xs IH]; simpl; [apply read_only_ret|].
  apply read_only_bind; [apply Hbody|]. intros _. exact IH.
Qed.

Lemma sends_only_for_each {A : Type} (P : Event → Prop) (xs : list A)
    (body : A → M unit) :
  (∀ x, sends_only P (body x)) → sends_only P (for_each xs body).
Proof.
  intros Hbody. induction xs as [|x xs IH]; simpl; [silent|].
  apply sends_only_bind; [apply Hbody|]. intros _. exact IH.
Qed.

(** X15. Listing the servers works on the store alone: whoever calls
    it and whatever the table holds, the store is left as it was and no
    request goes to the panel. *)
Theorem slash_viewservers_reads_only (W : World) (interaction : Interaction) :
  read_only (slash_viewservers W interaction)
  ∧ sends_only no_request_event (slash_viewservers W interaction).
Proof.
  unfold slash_viewservers. split.
  - destruct (negb _); [apply read_only_emit|].
    apply read_only_bind; [apply read_only_query|].
    intros [|r rows]; [apply read_only_emit|].
    apply read_only_bind.
    + apply read_only_for_each. intros chunk. apply read_only_emit.
    + intros _. apply read_only_emit.
  - destruct (negb _); [apply sends_only_emit; not_a_request|].
    apply sends_only_bind; [silent|].
    intros [|r rows]; [apply sends_only_emit; not_a_request|].
    apply sends_only_bind.
    + apply sends_only_for_each. intros chunk. apply sends_only_emit. not_a_request.
    + intros _. apply sends_only_emit. not_a_request.
Qed.

(** X16. Deleting a server on the panel never touches the records of
    the bot: for every invoker and every answer of the panel the store is
    as before, and any request sent has no body. *)
Theorem slash_deleteserver_keeps_records (W : World) (interaction : Interaction)
    (panel server_uuid : string) :
  read_only (slash_deleteserver W interaction panel server_uuid)
  ∧ sends_only (request_carries None)
               (slash_deleteserver W interaction panel server_uuid).
Proof.
  unfold slash_deleteserver. split.
  - destruct (negb _); [apply read_only_emit|].
    apply read_only_bind; [apply read_only_emit|]. intros _.
    apply read_only_bind; [apply read_only_app_api_request|]. intros res.
    apply read_only_bind; [apply read_only_dm_user_embed|]. intros _.
    apply read_only_bind; [apply read_only_send_log_embed|]. intros _.
    apply read_only_emit.
  - destruct (negb _); [apply sends_only_emit; no_request|].
    apply sends_only_bind; [apply sends_only_emit; no_request|]. intros _.
    apply sends_only_bind; [apply sends_only_app_api_request|]. intros res.
    apply sends_only_bind; [apply sends_only_dm_user_embed|]. intros _.
    apply sends_only_bind; [apply sends_only_send_log_embed|]. intros _.
    apply sends_only_emit. no_request.
Qed.

(** X17. The self-service commands work on the store alone as well:
    they leave it as it was and send nothing to the panel. *)
Theorem self_service_reads_only (W : World) (interaction : Interaction) :
  (read_only (slash_myservers W interaction)
   ∧ sends_only no_request_event (slash_myservers W interaction))
  ∧ (read_only (slash_myaccount W interaction)
     ∧ sends_only no_request_event (slash_myaccount W interaction)).
Proof.
  unfold slash_myservers, slash_myaccount. repeat split.
  - apply read_only_bind; [apply read_only_emit|]. intros _.
    apply read_only_bind; [apply read_only_query|].
    intros [|r rows].
    + apply read_only_bind; [apply read_only_emit|]. intros _.
      apply read_only_bind; [apply read_only_dm_user_embed|]. intros _.
      apply read_only_ret.
    + apply read_only_bind; [apply read_only_dm_user_embed|].
      intros [|]; apply read_only_emit.
  - apply sends_only_bind; [apply sends_only_emit; not_a_request|]. intros _.
    apply sends_only_bind; [silent|].
    intros [|r rows].
    + apply sends_only_bind; [apply sends_only_emit; not_a_request|]. intros _.
      apply sends_only_bind; [apply quiet_dm_user_embed|]. intros _. silent.
    + apply sends_only_bind; [apply quiet_dm_user_embed|].
      intros [|]; apply sends_only_emit; not_a_request.
  - apply read_only_bind; [apply read_only_query|].
    intros [r|]; [|apply read_only_emit].
    apply read_only_bind; [apply read_only_dm_user_embed|].
    intros [|]; apply read_only_emit.
  - apply sends_only_bind; [silent|].
    intros [r|]; [|apply sends_only_emit; not_a_request].
    apply sends_only_bind; [apply quiet_dm_user_embed|].
    intros [|]; apply sends_only_emit; not_a_request.
Qed.

(** ** Create-server, after the owner is resolved *)

(** The handler of an admin with a resolved owner is the deferral
    followed by [createserver_after_owner]: with an owner email given,
    for that email and no owner identity; with none given and a member
    linked to an account with an email, for that email and the identity
    of the member. *)
Lemma slash_createserver_resolved (W : World) (interaction : Interaction)
    (db : DB) (panel name docker_image startup : string)
    (owner_email description : option string) (owner_discord : option User)
    (egg memory disk cpu : Z) :
  str (user_id (user interaction)) ∈ ADMINS W →
  (∀ e, owner_email = Some e → e ≠ "" →
     slash_createserver W interaction panel owner_email owner_discord name egg
                        docker_image memory disk cpu startup description db
     = prepend [ResponseDefer true]
         (createserver_after_owner W interaction panel e None owner_discord name
            egg docker_image memory disk cpu startup description db))
  ∧ (∀ m u e, no_owner_email owner_email → owner_discord = Some m →
       find_user_by_discord (member_id m) db = Some u →
       dict_get "email" u = Some e → e ≠ "" →
       slash_createserver W interaction panel owner_email owner_discord name egg
                          docker_image memory disk cpu startup description db
       = prepend [ResponseDefer true]
           (createserver_after_owner W interaction panel e (Some (member_id m))
              owner_discord name egg docker_image memory disk cpu startup
              description db)).
Proof.
  intros Hadmin.
  assert (is_admin_user W (user interaction) = true) as Hgate
    by (by apply bool_decide_eq_true).
  split.
  - intros e -> He. unfold slash_createserver. rewrite Hgate. cbn [negb].
    rewrite bind_emit. f_equal.
    rewrite (truthy_str_some e He). cbn [negb].
    assert (∀ k : option string * option string → M unit,
              bind (match owner_discord with
                    | Some _ => ret (Some e, None)
                    | None => ret (Some e, None)
                    end) k db = k (Some e, None) db) as ->.
    { intros k. destruct owner_discord; apply bind_ret. }
    cbn [fst snd]. rewrite (truthy_str_some e He). cbn [negb]. reflexivity.
  - intros m u e Hno -> Hu Hemail He. unfold slash_createserver.
    rewrite Hgate. cbn [negb]. rewrite bind_emit. f_equal.
    apply truthy_str_false in Hno. rewrite Hno. cbn [negb].
    rewrite bind_assoc, bind_query.
    change (str (user_id m)) with (member_id m). rewrite Hu.
    apply find_user_by_discord_linked in Hu as (r & _ & _ & ->).
    unfold user_dict at 1. rewrite bind_ret. cbn [fst snd]. rewrite Hemail.
    rewrite (truthy_str_some e He). cbn [negb]. reflexivity.
Qed.

(** X18. The uuid read from a response: the one under [attributes]
    when it is there and not empty; nothing when the response is no
    object, or an object with neither [attributes] nor [object] (the
    adapter's own error results and its 204 marker are such); and an
    [AttributeError] when [attributes] is there and is no object. *)
Theorem response_uuid_spec (res : Json) :
  ((∀ kvs, res ≠ JDict kvs) → response_uuid res = Ok JNull)
  ∧ (∀ kvs attrs u, res = JDict kvs →
       dict_get "attributes" kvs = Some (JDict attrs) →
       dict_get "uuid" attrs = Some u → truthy u = true →
       response_uuid res = Ok u)
  ∧ (∀ kvs, res = JDict kvs →
       dict_get "attributes" kvs = None → dict_get "object" kvs = None →
       response_uuid res = Ok JNull)
  ∧ (∀ kvs v, res = JDict kvs →
       dict_get "attributes" kvs = Some v → (∀ attrs, v ≠ JDict attrs) →
       response_uuid res = Raise AttributeError).
Proof.
  split; [|split; [|split]].
  - intros Hno. destruct res; try done. by destruct (Hno kvs).
  - intros kvs attrs u -> Hattrs Hu Htruthy. unfold response_uuid, py_get.
    rewrite Hattrs. simpl. rewrite Hu. simpl. by rewrite Htruthy.
  - intros kvs -> Hattrs Hobject. unfold response_uuid, py_get.
    by rewrite Hattrs, Hobject.
  - intros kvs v -> Hattrs Hv. unfold response_uuid, py_get.
    rewrite Hattrs. simpl. destruct v; try done. by destruct (Hv kvs0).
Qed.

Lemma response_uuid_spec_witness :
  response_uuid (JStr "oops") = Ok JNull
  ∧ response_uuid (JDict [("attributes", JDict [("uuid", JStr "u-1")])])
    = Ok (JStr "u-1")
  ∧ response_uuid (error_dict "panel_not_found") = Ok JNull
  ∧ response_uuid (JDict [("attributes", JNull)]) = Raise AttributeError.
Proof.
  split; [|split; [|split]].
  - by apply (proj1 (response_uuid_spec (JStr "oops"))).
  - by apply (proj1 (proj2 (response_uuid_spec
                              (JDict [("attributes", JDict [("uuid", JStr "u-1")])])))
                    [("attributes", JDict [("uuid", JStr "u-1")])]
                    [("uuid", JStr "u-1")]).
  - by apply (proj1 (proj2 (proj2 (response_uuid_spec (error_dict "panel_not_found"))))
                    [("error", JStr "panel_not_found")]).
  - by apply (proj2 (proj2 (proj2 (response_uuid_spec (JDict [("attributes", JNull)]))))
                    [("attributes", JNull)] JNull).
Defined.

Lemma bind_run {A B : Type} (m : M A) (f : A → M B) (db : DB) :
  bind m f db
  = match result (m db) with
    | Ok a => prepend (events (m db)) (f a (store (m db)))
    | Raise e => mkOut (Raise e) (store (m db)) (events (m db))
    end.
Proof. unfold bind. by destruct (result (m db)). Qed.

Lemma createserver_after_owner_store (W : World) (interaction : Interaction)
    (panel owner : string) (owner_discord_id : option string)
    (owner_discord : option User) (name : string) (egg : Z)
    (docker_image : string) (memory disk cpu : Z) (startup : string)
    (description : option string) (db : DB) :
  store (createserver_after_owner W interaction panel owner owner_discord_id
           owner_discord name egg docker_image memory disk cpu startup
           description db)
  = match result (app_api_request W panel "/servers" "POST"
                    (Some (createserver_payload name owner egg docker_image
                             startup memory disk cpu)) db) with
    | Ok res =>
        match response_uuid res with
        | Ok v =>
            match sql_text (if truthy v then v else JStr "unknown") with
            | Ok stored =>
                save_created_server (CURRENT_TIMESTAMP W) panel
                  (default "unknown" stored) name owner owner_discord_id
                  description db
            | Raise _ => db
            end
        | Raise _ => db
        end
    | Raise _ => db
    end.
Proof.
  unfold createserver_after_owner. rewrite store_bind.
  rewrite read_only_app_api_request.
  destruct (result (app_api_request _ _ _ _ _ _)) as [res|e]; [|done].
  destruct (response_uuid res) as [v|e]; [|done].
  rewrite bind_lift_ok.
  destruct (sql_text _) as [stored|e]; [|done].
  rewrite bind_lift_ok, bind_execute.
  apply read_only_bind; [apply read_only_dm_user_embed|]. intros _.
  apply read_only_bind.
  { destruct owner_discord, owner_discord_id;
      first [ apply read_only_ret
            | apply read_only_bind;
              [apply read_only_dm_user_embed|intros _; apply read_only_ret] ]. }
  intros _. apply read_only_bind; [apply read_only_send_log_embed|].
  intros _. apply read_only_emit.
Qed.

Lemma slash_createserver_cases (W : World) (interaction : Interaction)
    (db : DB) (panel name docker_image startup : string)
    (owner_email description : option string) (owner_discord : option User)
    (egg memory disk cpu : Z) :
  is_admin_user W (user interaction) = true →
  ∃ o d,
    slash_createserver W interaction panel owner_email owner_discord name egg
                       docker_image memory disk cpu startup description db
    = prepend [ResponseDefer true]
        ((if negb (truthy_str o) then emit owner_unresolved
          else createserver_after_owner W interaction panel (default "" o) d
                 owner_discord name egg docker_image memory disk cpu startup
                 description) db).
Proof.
  intros Hgate. unfold slash_createserver. rewrite Hgate. cbn [negb].
  rewrite bind_emit.
  destruct owner_discord as [m|].
  - destruct (negb (truthy_str owner_email)) eqn:Hgiven.
    + rewrite bind_assoc, bind_query.
      destruct (find_user_by_discord (str (user_id m)) db) as [[|x u]|].
      * rewrite bind_ret. exists owner_email, None. cbn [fst snd].
        by rewrite Hgiven.
      * rewrite bind_ret.
        exists (dict_get "email" (x :: u)), (Some (str (user_id m))).
        cbn [fst snd]. reflexivity.
      * rewrite bind_ret. exists owner_email, None. cbn [fst snd].
        by rewrite Hgiven.
    + rewrite bind_ret. exists owner_email, None. cbn [fst snd].
      by rewrite Hgiven.
  - rewrite bind_ret. exists owner_email, None. cbn [fst snd]. reflexivity.
Qed.

(** X19. Create-server writes one server row at most and nothing
    else: for every invoker, input and answer of the panel, the store
    afterwards is the store before, or the store before with one row
    added to the servers table for the given panel, name and description. *)
Theorem slash_createserver_writes_one_row (W : World) (interaction : Interaction)
    (db : DB) (panel name docker_image startup : string)
    (owner_email description : option string) (owner_discord : option User)
    (egg memory disk cpu : Z) :
  let out := slash_createserver W interaction panel owner_email owner_discord
               name egg docker_image memory disk cpu startup description db in
  store out = db
  ∨ ∃ uuid owner owner_id,
      store out = save_created_server (CURRENT_TIMESTAMP W) panel uuid name owner
                                      owner_id description db.
Proof.
  intros out. unfold out.
  destruct (is_admin_user W (user interaction)) eqn:Hgate; last first.
  { left. unfold slash_createserver. by rewrite Hgate. }
  destruct (slash_createserver_cases W interaction db panel name docker_image
              startup owner_email description owner_discord egg memory disk cpu
              Hgate) as (o & d & ->).
  cbn [prepend store].
  destruct (negb (truthy_str o)); [by left|].
  rewrite createserver_after_owner_store.
  destruct (result _) as [res|e]; [|by left].
  destruct (response_uuid res) as [v|e]; [|by left].
  destruct (sql_text _) as [stored|e]; [|by left].
  right. by eexists _, _, _.
Qed.

(** X20. With an owner email given, an admin's create-server stores
    the row for that email with no owner identity, even when a member is
    named as well; and when the response carries no uuid (as the
    adapter's error results do not), the stored uuid is the placeholder
    "unknown". *)
Theorem slash_createserver_placeholder (W : World) (interaction : Interaction)
    (db : DB) (panel name docker_image startup e : string)
    (description : option string) (owner_discord : option User)
    (egg memory disk cpu : Z) (res v : Json) :
  str (user_id (user interaction)) ∈ ADMINS W →
  e ≠ "" →
  result (app_api_request W panel "/servers" "POST"
            (Some (createserver_payload name e egg docker_image startup
                     memory disk cpu)) db) = Ok res →
  response_uuid res = Ok v → truthy v = false →
  store (slash_createserver W interaction panel (Some e) owner_discord name egg
           docker_image memory disk cpu startup description db)
  = save_created_server (CURRENT_TIMESTAMP W) panel "unknown" name e None
                        description db.
Proof.
  intros Hadmin He Hres Huuid Hfalsy.
  rewrite (proj1 (slash_createserver_resolved W interaction db panel name
                    docker_image startup (Some e) description owner_discord egg
                    memory disk cpu Hadmin) e eq_refl He).
  cbn [prepend store]. rewrite createserver_after_owner_store.
  by rewrite Hres, Huuid, Hfalsy.
Qed.

Lemma admin_of_keyless : str (user_id (user admin_here)) ∈ ADMINS keyless_world.
Proof. change (str 1 ∈ ({[ "1" ]} : gset string)). by apply elem_of_singleton_2. Qed.

Lemma admin_of_live : str (user_id (user admin_here)) ∈ ADMINS live_world.
Proof. change (str 1 ∈ ({[ "1" ]} : gset string)). by apply elem_of_singleton_2. Qed.

Lemma slash_createserver_placeholder_witness :
  servers (store (slash_createserver keyless_world admin_here "alpha"
                    (Some "a@x.com") (Some (mkUser 7)) "srv" 1 "img" 1024 2048
                    100 "run" None empty_db))
  = [Servers.mk 1 "alpha" "unknown" "srv" "a@x.com" None None 100].
Proof.
  by rewrite (slash_createserver_placeholder keyless_world admin_here empty_db
                "alpha" "srv" "img" "run" "a@x.com" None (Some (mkUser 7))
                1 1024 2048 100 (error_dict "missing_application_key") JNull
                admin_of_keyless).
Defined.






Lemma sends_only_createserver_after_owner (W : World) (interaction : Interaction)
    (panel owner : string) (owner_discord_id : option string)
    (owner_discord : option User) (name : string) (egg : Z)
    (docker_image : string) (memory disk cpu : Z) (startup : string)
    (description : option string) :
  sends_only
    (request_carries (Some (createserver_payload name owner egg docker_image
                              startup memory disk cpu)))
    (createserver_after_owner W interaction panel owner owner_discord_id
       owner_discord name egg docker_image memory disk cpu startup description).
Proof.
  unfold createserver_after_owner.
  apply sends_only_bind; [apply sends_only_app_api_request|]. intros res.
  apply sends_only_bind; [silent|]. intros v.
  apply sends_only_bind; [silent|]. intros stored.
  apply sends_only_bind; [silent|]. intros _.
  apply sends_only_bind; [apply sends_only_dm_user_embed|]. intros _.
  apply sends_only_bind.
  { destruct owner_discord, owner_discord_id;
      first [ silent
            | apply sends_only_bind;
              [apply sends_only_dm_user_embed|intros _; silent] ]. }
  intros _. apply sends_only_bind; [apply sends_only_send_log_embed|].
  intros _. apply sends_only_emit. no_request.
Qed.

(** X22. With no owner email given and a member named who is linked
    to an account, an admin's create-server acts for that account: every
    request it sends names the email of the account as [user], and once
    the panel has answered with a uuid the stored row carries that uuid,
    that email and the identity of the member. *)
Theorem slash_createserver_linked_owner (W : World) (interaction : Interaction)
    (db : DB) (panel name docker_image startup e uuid : string)
    (owner_email description : option string) (m : User)
    (u : list (string * string)) (egg memory disk cpu : Z) (res : Json) :
  str (user_id (user interaction)) ∈ ADMINS W →
  no_owner_email owner_email →
  find_user_by_discord (member_id m) db = Some u →
  dict_get "email" u = Some e → e ≠ "" →
  let out := slash_createserver W interaction panel owner_email (Some m) name egg
               docker_image memory disk cpu startup description db in
  Forall (request_with_field "user" (JStr e)) (events out)
  ∧ (result (app_api_request W panel "/servers" "POST"
               (Some (createserver_payload name e egg docker_image startup
                        memory disk cpu)) db) = Ok res →
     response_uuid res = Ok (JStr uuid) → uuid ≠ "" →
     store out
     = save_created_server (CURRENT_TIMESTAMP W) panel uuid name e
                           (Some (member_id m)) description db).
Proof.
  intros Hadmin Hno Hu He Hne out. unfold out.
  rewrite (proj2 (slash_createserver_resolved W interaction db panel name
                    docker_image startup owner_email description (Some m) egg
                    memory disk cpu Hadmin) m u e Hno eq_refl Hu He Hne).
  split.
  - cbn [prepend events app]. constructor; [intros ? ? ? ? ?; discriminate|].
    eapply Forall_impl; [apply sends_only_createserver_after_owner|].
    intros ev Hev method url headers json ->.
    rewrite (Hev method url headers json eq_refl). by eexists.
  - intros Hres Huuid Huuid_ne. cbn [prepend store].
    rewrite createserver_after_owner_store, Hres, Huuid.
    cbn [truthy]. apply String.eqb_neq in Huuid_ne. by rewrite Huuid_ne.
Qed.

Lemma admin_of_uuid : str (user_id (user admin_here)) ∈ ADMINS uuid_world.
Proof. change (str 1 ∈ ({[ "1" ]} : gset string)). by apply elem_of_singleton_2. Qed.

Lemma slash_createserver_linked_owner_witness :
  let db := save_created_user 5 "alpha" "a@x.com" "pw" (Some "7") None empty_db in
  let out := slash_createserver uuid_world admin_here "alpha" None
               (Some (mkUser 7)) "srv" 1 "img" 1024 2048 100 "run" None db in
  Forall (request_with_field "user" (JStr "a@x.com")) (events out)
  ∧ servers (store out)
    = [Servers.mk 1 "alpha" "u-1" "srv" "a@x.com" (Some "7") None 100].
Proof.
  intros db out.
  destruct (slash_createserver_linked_owner uuid_world admin_here db "alpha" "srv"
              "img" "run" "a@x.com" "u-1" None None (mkUser 7)
              [("email", "a@x.com"); ("password", "pw"); ("panel_key", "alpha")]
              1 1024 2048 100
              (JDict [("attributes", JDict [("uuid", JStr "u-1")])])
              admin_of_uuid) as [Hsent Hstored]; [by left|done|done|done|].
  split; [exact Hsent|].
  fold out in Hstored. by rewrite Hstored.
Defined.

(** ** Posting to the audit channel *)

Lemma slash_setserverlog_store (W : World) (interaction : Interaction)
    (panel server_id : string) (channel : TextChannel) (db : DB) :
  str (user_id (user interaction)) ∈ ADMINS W →
  store (slash_setserverlog W interaction panel server_id channel db)
  = set_log_channel panel (text_channel_id channel) (Some server_id) db.
Proof.
  intros Hadmin. unfold slash_setserverlog.
  assert (is_admin_user W (user interaction) = true) as ->
    by (by apply bool_decide_eq_true).
  cbn [negb]. by rewrite bind_execute.
Qed.

(** X23. After an admin has set the log channel of a server, a log
    entry for that server on that panel goes to that channel, whatever
    sinks were stored before: one post to it, with the panel and the
    server in the footer, and nothing else. The server id must not be
    empty, and the channel must be one the bot can reach with an id other
    than 0. *)
Theorem server_log_goes_to_its_channel (W : World) (interaction : Interaction)
    (panel server_id title : string) (description : Text) (color c : Z) (db : DB) :
  str (user_id (user interaction)) ∈ ADMINS W →
  server_id ≠ "" → c ≠ 0 → channel_known W c = true →
  let db' := store (slash_setserverlog W interaction panel server_id
                                       (mkTextChannel c) db) in
  send_log_embed W panel (JStr server_id) title description color db'
  = mkOut (Ok tt) db'
          [ChannelSend c
             (mkEmbed title description color
                      [Lit "Panel: "; Lit panel; Lit " | Server: ";
                       PyStr (JStr server_id)])].
Proof.
  intros Hadmin Hs Hc Hknown db'. unfold db'.
  rewrite (slash_setserverlog_store _ _ _ _ _ _ Hadmin). cbn [text_channel_id].
  unfold send_log_embed.
  assert (truthy (JStr server_id) = true) as ->.
  { simpl. by apply negb_true_iff, String.eqb_neq. }
  cbn [sql_text]. rewrite bind_lift_ok, bind_query.
  assert (get_log_channel panel (Some server_id)
            (set_log_channel panel c (Some server_id) db) = Ok (Some c)) as ->.
  { unfold get_log_channel. apply String.eqb_neq in Hs. rewrite Hs. cbn [negb].
    destruct (find_after_set_specific db panel server_id c) as (r & -> & Hr).
    by apply channel_of_str. }
  rewrite bind_lift_ok.
  apply Z.eqb_neq in Hc. by rewrite Hc, Hknown.
Qed.

Lemma server_log_goes_to_its_channel_witness :
  let db := set_log_channel "alpha" 66 None empty_db in
  let db' := store (slash_setserverlog uuid_world admin_here "alpha" "srv-1"
                                       (mkTextChannel 55) db) in
  events (send_log_embed uuid_world "alpha" (JStr "srv-1") "Power: start"
                         [Lit "sent"] blue db')
  = [ChannelSend 55 (mkEmbed "Power: start" [Lit "sent"] blue
                             [Lit "Panel: "; Lit "alpha"; Lit " | Server: ";
                              PyStr (JStr "srv-1")])].
Proof.
  intros db db'. unfold db'.
  by rewrite (server_log_goes_to_its_channel uuid_world admin_here "alpha" "srv-1"
                "Power: start" [Lit "sent"] blue 55 db admin_of_uuid).
Defined.

(** X24. On a well-formed store a log entry for a server named by a
    string, or for no server, never fails and never writes: it ends
    normally with the store as before, having posted nothing, or one
    message to the channel the sink lookup returned, which is then
    reachable and not 0. *)
Theorem send_log_embed_safe (W : World) (panel_key : string) (server_id : Json)
    (title : string) (description : Text) (color : Z) (db : DB) :
  store_ok db →
  server_id = JNull ∨ (∃ s, server_id = JStr s) →
  let out := send_log_embed W panel_key server_id title description color db in
  result out = Ok tt ∧ store out = db
  ∧ (events out = []
     ∨ ∃ c embed, events out = [ChannelSend c embed]
                  ∧ c ≠ 0 ∧ channel_known W c = true
                  ∧ get_log_channel panel_key
                      (match server_id with JStr s => Some s | _ => None end) db
                    = Ok (Some c)).
Proof.
  intros Hok Hid out. unfold out, send_log_embed.
  set (sid := match server_id with JStr s => Some s | _ => None end).
  assert (∀ k : option string → M unit,
            bind (if truthy server_id then lift (sql_text server_id) else ret None)
                 k db
            = k (if truthy server_id then sid else None) db) as ->.
  { intros k. destruct Hid as [->|[s ->]]; simpl.
    - apply bind_ret.
    - destruct (negb (String.eqb s "")); [apply bind_lift_ok|apply bind_ret]. }
  rewrite bind_query.
  assert (get_log_channel panel_key (if truthy server_id then sid else None) db
          = get_log_channel panel_key sid db) as ->.
  { destruct Hid as [->|[s ->]]; [done|]. unfold sid. cbn [truthy].
    destruct (String.eqb s "") eqn:Hs; cbn [negb]; [|done].
    unfold get_log_channel. by rewrite Hs. }
  destruct (get_log_channel_numeric db panel_key sid (channels_numeric db Hok))
    as [found Hfound].
  rewrite Hfound, bind_lift_ok.
  destruct found as [c|]; [|by split; [|split; [|left]]].
  destruct (Z.eqb_spec c 0) as [->|Hc]; [by split; [|split; [|left]]|].
  destruct (channel_known W c) eqn:Hknown; [|by split; [|split; [|left]]].
  split; [done|]. split; [done|]. right. by eexists _, _.
Qed.

Lemma send_log_embed_safe_witness :
  let out := send_log_embed uuid_world "alpha" (JStr "srv-1") "Status" [Lit "ok"]
               blue (set_log_channel "alpha" 66 None empty_db) in
  result out = Ok tt ∧ events out = [].
Proof.
  intros out.
  destruct (send_log_embed_safe uuid_world "alpha" (JStr "srv-1") "Status"
              [Lit "ok"] blue (set_log_channel "alpha" 66 None empty_db))
    as (Hres & _ & _).
  - apply set_log_channel_ok, store_ok_empty.
  - right. by exists "srv-1".
  - split; [exact Hres|reflexivity].
Defined.

(** ** The share-add session, when a reply arrives *)

Lemma read_only_except_timeout {A : Type} (m h : M A) :
  read_only m → read_only h → read_only (except_timeout m h).
Proof.
  intros Hm Hh db. unfold except_timeout.
  destruct (result (m db)) as [a|[]]; try apply Hm.
  simpl. by rewrite Hm, Hh.
Qed.

Lemma sends_only_except_timeout {A : Type} (P : Event → Prop) (m h : M A) :
  sends_only P m → sends_only P h → sends_only P (except_timeout m h).
Proof.
  intros Hm Hh db. unfold except_timeout.
  destruct (result (m db)) as [a|[]]; try apply Hm.
  simpl. apply Forall_app. split; [apply Hm|apply Hh].
Qed.

Lemma except_timeout_events {A : Type} (m h : M A) (db : DB) :
  ∃ tail, events (except_timeout m h db) = events (m db) ++ tail.
Proof.
  unfold except_timeout.
  destruct (result (m db)) as [a|[]];
    first [ by exists []; rewrite (right_id_L [] (++)) | by eexists ].
Qed.

Lemma events_bind_prefix {A B : Type} (m : M A) (f : A → M B) (db : DB) :
  ∃ tail, events (bind m f db) = events (m db) ++ tail.
Proof.
  rewrite events_bind. destruct (result (m db)); [by eexists|].
  exists []. by rewrite (right_id_L [] (++)).
Qed.

Lemma find_first_conv {A : Type} (f : A → bool) (pre post : list A) (x : A) :
  (∀ y, y ∈ pre → f y = false) → f x = true →
  find f (pre ++ x :: post) = Some x.
Proof.
  intros Hpre Hx. induction pre as [|a pre IH]; simpl.
  - by rewrite Hx.
  - rewrite (Hpre a) by (by left). apply IH. intros y Hy. apply Hpre. by right.
Qed.

Lemma wait_for_first_reply (W : World) (i : Interaction) (m : Message) (db : DB) :
  first_reply W i m →
  wait_for W (λ m', (user_id (author m') =? user_id (user i))
                    && (channel m' =? channel_id i)) DEFAULT_TIMEOUT db
  = mkOut (Ok m) db [].
Proof.
  intros (pre & t & post & Hinbox & Ht & [Ha Hc] & Hpre).
  unfold wait_for. rewrite Hinbox.
  rewrite (find_first_conv _ pre post (t, m)); [done| |].
  - intros [t' m'] Hin. simpl.
    destruct (Nat.ltb_spec t' DEFAULT_TIMEOUT) as [Hlt|]; [|done]. simpl.
    destruct (Z.eqb_spec (user_id (author m')) (user_id (user i))) as [Ha'|];
      [|done].
    destruct (Z.eqb_spec (channel m') (channel_id i)) as [Hc'|]; [|done].
    by destruct (Hpre t' m' Hin).
  - simpl. apply andb_true_intro. split; [by apply Nat.ltb_lt|].
    apply andb_true_intro. split; by apply Z.eqb_eq.
Qed.

(** X25. When a message from the actor arrives in the channel within
    the timeout, the add-share control invites the email of the first
    such message, with the blanks around it removed and the fixed
    permissions: no request it sends carries anything else, and with a
    panel that has a URL and a client key the events start with the
    prompt and the invitation request. The store is not written. *)
Theorem add_user_invites_first_reply (W : World) (panel_key server_id : string)
    (i : Interaction) (m : Message) (db : DB) :
  first_reply W i m →
  let out := add_user W panel_key server_id i db in
  let invitation := Some (share_payload (strip (content m))) in
  store out = db
  ∧ Forall (request_carries invitation) (events out)
  ∧ (∀ p key base,
       PANELS W !! panel_key = Some p → p !! "api_key" = Some key → key ≠ "" →
       p !! "url" = Some base →
       ∃ rest,
         events out
         = ResponseSendMessage [Lit "Reply with the email to invite (60s)."] true
           :: HttpRequest "POST"
                (rstrip_chars ["/"%char] base +:+ "/api/client"
                 +:+ "/servers/" +:+ server_id +:+ "/users")
                (request_headers key) invitation
           :: rest).
Proof.
  intros Hreply out invitation. unfold out, add_user.
  rewrite bind_emit. cbn [prepend store events app].
  set (check := λ m' : Message,
         (user_id (author m') =? user_id (user i)) && (channel m' =? channel_id i)).
  pose proof (wait_for_first_reply W i m db Hreply) as Hwait. fold check in Hwait.
  set (invite := λ msg : Message,
         bind (client_api_request W panel_key ("/servers/" +:+ server_id +:+ "/users")
                 "POST" (Some (share_payload (strip (content msg)))))
           (λ r, bind (emit (FollowupSend
                               [Lit "Invited `"; Lit (strip (content msg));
                                Lit "` — result: "; PyStr r] true))
                   (λ _, send_log_embed W panel_key (JStr server_id)
                           "Subuser Invited"
                           [Lit (strip (content msg)); Lit " — "; PyStr r] blue))).
  set (late := emit (FollowupSend [Lit "Timed out. Try again."] true)).
  change (store (except_timeout (bind (wait_for W check DEFAULT_TIMEOUT) invite)
                                late db) = db
          ∧ Forall (request_carries invitation)
              (ResponseSendMessage [Lit "Reply with the email to invite (60s)."] true
               :: events (except_timeout
                            (bind (wait_for W check DEFAULT_TIMEOUT) invite) late db))
          ∧ (∀ p key base,
               PANELS W !! panel_key = Some p → p !! "api_key" = Some key →
               key ≠ "" → p !! "url" = Some base →
               ∃ rest,
                 ResponseSendMessage [Lit "Reply with the email to invite (60s)."] true
                 :: events (except_timeout
                              (bind (wait_for W check DEFAULT_TIMEOUT) invite) late db)
                 = ResponseSendMessage [Lit "Reply with the email to invite (60s)."] true
                   :: HttpRequest "POST"
                        (rstrip_chars ["/"%char] base +:+ "/api/client"
                         +:+ "/servers/" +:+ server_id +:+ "/users")
                        (request_headers key) invitation
                   :: rest)).
  assert (except_timeout (bind (wait_for W check DEFAULT_TIMEOUT) invite) late db
          = except_timeout (invite m) late db) as ->.
  { unfold except_timeout. rewrite bind_run, Hwait. cbn [result store events].
    by rewrite prepend_nil. }
  assert (read_only (invite m)) as Hro.
  { unfold invite. apply read_only_bind; [apply read_only_client_api_request|].
    intros r. apply read_only_bind; [apply read_only_emit|].
    intros _. apply read_only_send_log_embed. }
  assert (sends_only (request_carries invitation) (invite m)) as Hso.
  { unfold invite, invitation. apply sends_only_bind.
    - unfold client_api_request.
      destruct (not_panel _); [silent|]. destruct (negb _); [silent|].
      destruct (_ ≫= _); [apply sends_only_session_request|silent].
    - intros r. apply sends_only_bind; [apply sends_only_emit; no_request|].
      intros _. apply sends_only_send_log_embed. }
  split; [|split].
  - apply read_only_except_timeout; [exact Hro|apply read_only_emit].
  - constructor; [no_request|].
    apply sends_only_except_timeout; [exact Hso|].
    apply sends_only_emit. no_request.
  - intros p key base Hp Hkey Hne Hurl.
    assert (client_api_request W panel_key
              ("/servers/" +:+ server_id +:+ "/users") "POST" invitation db
            = mkOut (normalized
                       (http W "POST"
                          (rstrip_chars ["/"%char] base +:+ "/api/client"
                           +:+ "/servers/" +:+ server_id +:+ "/users")
                          (request_headers key) invitation)) db
                [HttpRequest "POST"
                   (rstrip_chars ["/"%char] base +:+ "/api/client"
                    +:+ "/servers/" +:+ server_id +:+ "/users")
                   (request_headers key) invitation]) as Hcall.
    { unfold client_api_request.
      rewrite Hp, (not_panel_keyed _ _ _ Hkey). simpl.
      rewrite Hkey, Hurl. rewrite (truthy_str_some _ Hne). simpl.
      apply session_request_out. }
    unfold invitation in Hcall |- *.
    destruct (except_timeout_events (invite m) late db) as [tail1 ->].
    unfold invite.
    destruct (events_bind_prefix
                (client_api_request W panel_key
                   ("/servers/" +:+ server_id +:+ "/users") "POST"
                   (Some (share_payload (strip (content m)))))
                (λ r, bind (emit (FollowupSend
                                    [Lit "Invited `"; Lit (strip (content m));
                                     Lit "` — result: "; PyStr r] true))
                        (λ _, send_log_embed W panel_key (JStr server_id)
                                "Subuser Invited"
                                [Lit (strip (content m)); Lit " — "; PyStr r] blue))
                db) as [tail2 ->].
    rewrite Hcall. cbn [events app]. by eexists.
Qed.

Lemma add_user_invites_first_reply_witness :
  ∃ rest,
    events (add_user uuid_world "alpha" "srv-1" admin_here empty_db)
    = ResponseSendMessage [Lit "Reply with the email to invite (60s)."] true
      :: HttpRequest "POST" "https://panel.example/api/client/servers/srv-1/users"
           (request_headers "ptlc_key") (Some (share_payload "b@x.com"))
      :: rest.
Proof.
  assert (first_reply uuid_world admin_here (mkMessage (mkUser 1) 30 " b@x.com "))
    as Hreply.
  { exists [(5%nat, mkMessage (mkUser 2) 30 "c@x.com")], 20%nat,
           [(25%nat, mkMessage (mkUser 1) 30 "d@x.com")].
    split; [done|]. split; [unfold DEFAULT_TIMEOUT; lia|]. split; [done|].
    intros t' m' Hin [_ [Ha _]].
    apply list_elem_of_singleton in Hin. injection Hin as -> ->. done. }
  destruct (add_user_invites_first_reply uuid_world "alpha" "srv-1" admin_here _
              empty_db Hreply) as (_ & _ & Hsent).
  apply (Hsent ({[ "url" := "https://panel.example/";
                   "api_key" := "ptlc_key";
                   "application_api_key" := "ptla_key" ]})
               "ptlc_key" "https://panel.example/"); done.
Defined.

(** ** The account a member sees *)

(** X26. [/myaccount] shows the account that a lookup by the caller's
    identity returns, the one create-server resolves for that member:
    with no such account the only event is the "No account linked"
    reply; with one, the direct message sent first describes that
    account. *)
Theorem slash_myaccount_shows_linked_account (W : World) (i : Interaction) (db : DB) :
  (find_user_by_discord (member_id (user i)) db = None →
   slash_myaccount W i db
   = mkOut (Ok tt) db
       [ResponseSendMessage
          [Lit "No account linked. An admin must create and link a panel user to your Discord."]
          true])
  ∧ (∀ u, find_user_by_discord (member_id (user i)) db = Some u →
       ∃ r reply,
         r ∈ users db ∧ u = user_dict r
         ∧ events (slash_myaccount W i db)
           = [UserSendEmbed (user_id (user i))
                (lightning_embed "Your Panel Account" (account_text r) blue)
                (user_send_ok W (user_id (user i)));
              reply]).
Proof.
  unfold find_user_by_discord, slash_myaccount. rewrite bind_query.
  change (find (linked_with (member_id (user i))) (users db))
    with (find (λ r, match Users.discord_id r with
                     | Some d => String.eqb d (member_id (user i))
                     | None => false
                     end) (users db)).
  destruct (find _ (users db)) as [r|] eqn:Hf.
  - split; [done|]. intros u [= <-].
    apply find_some in Hf as [Hin _].
    unfold dm_user_embed. rewrite bind_assoc, bind_emit, bind_ret.
    destruct (user_send_ok W (user_id (user i)));
      (eexists r, _; split; [by apply list_elem_of_In|]; split; [done|]; reflexivity).
  - split; [done|]. intros u Hu. discriminate.
Qed.

Lemma slash_myaccount_shows_linked_account_witness :
  let db := save_created_user 5 "alpha" "a@x.com" "pw" (Some "1") (Some "ann")
              empty_db in
  events (slash_myaccount live_world admin_here db)
  = [UserSendEmbed 1
       (lightning_embed "Your Panel Account"
          (account_text (Users.mk 1 "a@x.com" "pw" "alpha" (Some "1") (Some "ann") 5))
          blue) true;
     ResponseSendMessage [Lit "✅ Sent account info to DM."] true]
  ∧ slash_myaccount live_world guest_here db
    = mkOut (Ok tt) db
        [ResponseSendMessage
           [Lit "No account linked. An admin must create and link a panel user to your Discord."]
           true].
Proof.
  intros db. split; [reflexivity|].
  by apply (proj1 (slash_myaccount_shows_linked_account live_world guest_here db)).
Defined.

(** ** The handlers keep the store well formed *)

Lemma keeps_read_only {A : Type} (P : DB → Prop) (m : M A) :
  read_only m → keeps P m.
Proof. intros Hm db Hdb. by rewrite Hm. Qed.

Lemma keeps_bind {A B : Type} (P : DB → Prop) (m : M A) (f : A → M B) :
  keeps P m → (∀ a, keeps P (f a)) → keeps P (bind m f).
Proof.
  intros Hm Hf db Hdb. rewrite store_bind.
  destruct (result (m db)); [apply Hf|]; by apply Hm.
Qed.

Lemma keeps_execute (P : DB → Prop) (stmt : DB → DB) :
  (∀ db, P db → P (stmt db)) → keeps P (execute stmt).
Proof. intros Hstmt db Hdb. by apply Hstmt. Qed.

(** X27. Every command that writes keeps the store well formed:
    create-account, create-server, the two log-channel commands and the
    quick share, for every invoker, input and answer of the panel. *)
Theorem handlers_keep_store_ok (W : World) (interaction : Interaction)
    (panel email firstname lastname name docker_image startup server_id : string)
    (password nickname owner_email description : option string)
    (is_admin : bool) (discord_member owner_discord member : option User)
    (egg memory disk cpu : Z) (channel : TextChannel) :
  keeps store_ok (slash_createuser W interaction panel email password firstname
                                   lastname is_admin nickname discord_member)
  ∧ keeps store_ok (slash_createserver W interaction panel owner_email
                                       owner_discord name egg docker_image memory
                                       disk cpu startup description)
  ∧ keeps store_ok (slash_setlogchannel W interaction panel channel)
  ∧ keeps store_ok (slash_setserverlog W interaction panel server_id channel)
  ∧ keeps store_ok (shareuser_cmd W panel server_id email member).
Proof.
  split; [|split; [|split; [|split]]].
  - unfold slash_createuser.
    destruct (negb _); [apply keeps_read_only, read_only_emit|].
    apply keeps_bind; [apply keeps_read_only, read_only_emit|]. intros _.
    apply keeps_bind; [apply keeps_read_only, read_only_lift|]. intros username.
    apply keeps_bind; [apply keeps_read_only, read_only_app_api_request|].
    intros res. apply keeps_bind.
    { apply keeps_execute. intros db. apply save_created_user_ok. }
    intros _. apply keeps_read_only.
    apply read_only_bind; [apply read_only_dm_user_embed|]. intros dm_ok.
    apply read_only_bind.
    { destruct discord_member; [|apply read_only_ret].
      apply read_only_bind; [apply read_only_dm_user_embed|].
      intros _. apply read_only_ret. }
    intros _. apply read_only_bind; [apply read_only_send_log_embed|].
    intros _. destruct dm_ok; apply read_only_emit.
  - intros db Hdb.
    destruct (is_admin_user W (user interaction)) eqn:Hgate; last first.
    { unfold slash_createserver. by rewrite Hgate. }
    destruct (slash_createserver_cases W interaction db panel name docker_image
                startup owner_email description owner_discord egg memory disk cpu
                Hgate) as (o & d & ->).
    cbn [prepend store]. destruct (negb (truthy_str o)); [done|].
    rewrite createserver_after_owner_store.
    destruct (result _) as [res|e]; [|done].
    destruct (response_uuid res) as [v|e]; [|done].
    destruct (sql_text _) as [stored|e]; [|done].
    by apply save_created_server_ok.
  - unfold slash_setlogchannel.
    destruct (negb _); [apply keeps_read_only, read_only_emit|].
    apply keeps_bind; [|intros _; apply keeps_read_only, read_only_emit].
    apply keeps_execute. intros db. apply set_log_channel_ok.
  - unfold slash_setserverlog.
    destruct (negb _); [apply keeps_read_only, read_only_emit|].
    apply keeps_bind; [|intros _; apply keeps_read_only, read_only_emit].
    apply keeps_execute. intros db. apply set_log_channel_ok.
  - unfold shareuser_cmd.
    apply keeps_bind; [apply keeps_read_only, read_only_client_api_request|].
    intros r. apply keeps_bind.
    { destruct member; [|apply keeps_read_only, read_only_ret].
      apply keeps_execute. intros db. apply update_discord_id_ok. }
    intros _. apply keeps_bind; [apply keeps_read_only, read_only_emit|].
    intros _. apply keeps_read_only, read_only_send_log_embed.
Qed.

Lemma handlers_keep_store_ok_witness :
  store_ok (store (slash_createuser live_world admin_here "alpha" "a@x.com" None
                     "A" "B" false None (Some (mkUser 7)) empty_db))
  ∧ store_ok (store (shareuser_cmd live_world "alpha" "srv-1" "a@x.com"
                       (Some (mkUser 7)) empty_db)).
Proof.
  pose proof (handlers_keep_store_ok live_world admin_here "alpha" "a@x.com" "A" "B"
                "srv" "img" "run" "srv-1" None None None None false
                (Some (mkUser 7)) None (Some (mkUser 7)) 1 2 3 4 (mkTextChannel 9))
    as (Hcreate & _ & _ & _ & Hshare).
  split; [apply Hcreate|apply Hshare]; apply store_ok_empty.
Defined.
